(** * Blended trending subreddits: a model of [scripts/gen_trending_subriff.py]

    The script queries subriff.com for four size filters and two sort
    periods, folds the answers into one record per subreddit name, scores
    every record and selects a diversified list of at most thirty names.

    Conventions of the embedding.
    - Python [int] is [Z]; Python [float] is idealised as an exact rational
      [Q] (no rounding, no NaN, no infinities).  [min] and [max] of Python
      return their first argument unless the second is strictly smaller
      (resp. greater), which is what [Qmin] and [Qmax] compute.
    - The insertion-ordered [dict] [subreddit_data] is an association list
      in insertion order; the [defaultdict(list)] [by_size_category] is a
      [gmap] whose missing keys read as the empty list; the [set]
      [selected] is a [gset].
    - An exception is the left summand of [exn + A]. *)

From Stdlib Require Import QArith Qminmax ZArith List Lia Lqa.
From Stdlib Require Import Permutation Sorted SpecFloat.
From stdpp Require Import base option list gmap strings.

#[local] Set Warnings "-clear-no-such-hyp".

Local Open Scope string_scope.
Local Open Scope list_scope.
Local Open Scope Z_scope.

(** ** Constants *)

Definition SIZE_FILTERS : list string :=
  ["medium-small"; "medium"; "large"; "xlarge"].
Definition SORT_PERIODS : list string := ["daily"; "weekly"].
Definition RESULTS_PER_QUERY : Z := 20.
Definition TOP_PER_SIZE_CATEGORY : nat := 5.
Definition FINAL_OUTPUT_LIMIT : nat := 30.

(** ** Data model *)

(** The dataclass [SubredditScore]. *)
Record SubredditScore : Type := mkSubredditScore {
  name : string;
  subscribers : Z;
  daily_growth_pct : Q;
  weekly_growth_pct : Q;
  daily_rank : option Z;
  weekly_rank : option Z;
  size_filter : string;
  appearances : Z;
  composite_score : Q
}.

(** One JSON object of the ["subreddits"] array, read with [dict.get].  A
    field is [None] when its key is missing or [null].  The leaves are typed
    as the dataclass annotates the fields they feed: a string for the name,
    an [int] for the subscribers, numbers for the growth figures; the three
    flags are booleans. *)
Record raw_record : Type := mkRaw {
  displayName : option string;
  raw_subscribers : option Z;
  dailyGrowthPercentage : option Q;
  weeklyGrowthPercentage : option Q;
  isNsfw : option bool;
  internal_IsNsfw : option bool;
  suggested_Internal_IsNsfw : option bool
}.

(** ** Scorer *)

Module Scorer.
Local Open Scope Q_scope.

(** [calculate_composite_score], statement by statement. *)
Definition calculate_composite_score (sub : SubredditScore) : Q :=
  let score := 0 in
  let score :=
    match daily_rank sub with
    | Some r => score + inject_Z (Z.max 0 (RESULTS_PER_QUERY - r))
    | None => score
    end in
  let score :=
    match weekly_rank sub with
    | Some r => score + inject_Z (Z.max 0 (RESULTS_PER_QUERY - r))
    | None => score
    end in
  let score :=
    if (2 <=? appearances sub)%Z
    then score + inject_Z (15 * (appearances sub - 1))
    else score in
  let daily_contrib := Qmin (daily_growth_pct sub) 100 / 10 in
  let weekly_contrib := Qmin (weekly_growth_pct sub) 500 / 50 in
  score + (daily_contrib + weekly_contrib).

(** The formula as the specification words it, term by term. *)
Definition position_points (rank : option Z) : Q :=
  match rank with
  | Some r => inject_Z (Z.max 0 (20 - r))
  | None => 0
  end.

Definition appearance_bonus (n : Z) : Q :=
  if (2 <=? n)%Z then inject_Z (15 * (n - 1)) else 0.


(** The part of the score that does not depend on growth. *)
Definition rank_and_appearance_points (sub : SubredditScore) : Q :=
  position_points (daily_rank sub)
  + position_points (weekly_rank sub)
  + appearance_bonus (appearances sub).

(** A record seen at rank 0 of both periods of one size filter, no growth. *)
Definition both_periods_top : SubredditScore :=
  {| name := "a"; subscribers := 0;
     daily_growth_pct := 0; weekly_growth_pct := 0;
     daily_rank := Some 0%Z; weekly_rank := Some 0%Z;
     size_filter := "medium"; appearances := 2; composite_score := 0 |}.

End Scorer.

(** ** Exceptions *)

(** The exception classes the script can meet; all derive from [Exception]. *)
Inductive exn : Type :=
  | ConnectionError   (* raised by [requests.get]: transport, timeout *)
  | HTTPError         (* raised by [response.raise_for_status]        *)
  | JSONDecodeError   (* raised by [response.json]                    *)
  | AttributeError.   (* [.get] on a value that is not a mapping      *)

Definition result (A : Type) : Type := (exn + A)%type.
Definition ret {A} (a : A) : result A := inr a.
Definition raise {A} (e : exn) : result A := inl e.
Definition bind {A B} (m : result A) (k : A -> result B) : result B :=
  match m with
  | inl e => inl e
  | inr a => k a
  end.

Notation "'do' x <- m ; k" := (bind m (fun x => k))
  (at level 10, x name, m at level 100, k at level 200).

(** ** Fetcher *)

Module Fetcher.

(** An element of the ["subreddits"] array: a JSON object, or anything else. *)
Inductive item : Type :=
  | Mapping (sub : raw_record)
  | NotMapping.

(** A decoded response body: an object, with or without the key
    ["subreddits"], or a JSON value that is not an object. *)
Inductive json_data : Type :=
  | JsonObject (subreddits : option (list item))
  | JsonOther.

(** What [requests.get] hands back: the status, and the body decoded when it
    is JSON at all. *)
Record response : Type := mkResponse {
  status_ok : bool;
  body : option json_data
}.

(** The network: [requests.get] for the query [(size_filter, sort_by)]
    either raises or returns a response. *)
Definition network : Type := string -> string -> result response.

Definition raise_for_status (r : response) : result unit :=
  if status_ok r then ret tt else raise HTTPError.

Definition json (r : response) : result json_data :=
  match body r with
  | Some data => ret data
  | None => raise JSONDecodeError
  end.

(** [data.get("subreddits", [])] *)
Definition get_subreddits (data : json_data) : result (list item) :=
  match data with
  | JsonObject (Some l) => ret l
  | JsonObject None => ret []
  | JsonOther => raise AttributeError
  end.

Definition fetch_subreddits (requests_get : network)
    (size_filter sort_by : string) : result (list item) :=
  do response <- requests_get size_filter sort_by;
  do checked <- raise_for_status response;
  do data <- json response;
  get_subreddits data.

End Fetcher.

(** ** Insertion-ordered dictionaries *)

Section Dict.
Context {V : Type}.

Fixpoint dict_get (k : string) (d : list (string * V)) : option V :=
  match d with
  | [] => None
  | (k', v) :: d' => if decide (k' = k) then Some v else dict_get k d'
  end.

(** In-place mutation of the object stored under [k]. *)
Fixpoint dict_alter (f : V -> V) (k : string) (d : list (string * V))
    : list (string * V) :=
  match d with
  | [] => []
  | (k', v) :: d' =>
      if decide (k' = k) then (k', f v) :: d'
      else (k', v) :: dict_alter f k d'
  end.

Definition dict_keys (d : list (string * V)) : list string := d.*1.
Definition dict_values (d : list (string * V)) : list V := d.*2.

End Dict.

(** ** Aggregator *)

Module Aggregator.
Import Fetcher.

Record agg_state : Type := mkState {
  subreddit_data : list (string * SubredditScore);
  by_size_category : gmap string (list string)
}.

Definition initial : agg_state :=
  {| subreddit_data := []; by_size_category := ∅ |}.

Definition truthy (flag : option bool) : bool :=
  match flag with
  | Some true => true
  | _ => false
  end.

Definition is_nsfw (sub : raw_record) : bool :=
  truthy (isNsfw sub)
  || truthy (internal_IsNsfw sub)
  || truthy (suggested_Internal_IsNsfw sub).

(** [sub.get(key, 0) or 0] *)
Definition growth_or_0 (v : option Q) : Q :=
  match v with
  | Some q => if Qeq_bool q 0 then 0%Q else q
  | None => 0%Q
  end.

Definition new_entry (nm : string) (sub : raw_record) (size_filter : string)
    : SubredditScore :=
  {| name := nm;
     subscribers := default 0 (raw_subscribers sub);
     daily_growth_pct := growth_or_0 (dailyGrowthPercentage sub);
     weekly_growth_pct := growth_or_0 (weeklyGrowthPercentage sub);
     daily_rank := None;
     weekly_rank := None;
     size_filter := size_filter;
     appearances := 0;
     composite_score := 0%Q |}.

Definition set_appearances (n : Z) (e : SubredditScore) : SubredditScore :=
  mkSubredditScore (name e) (subscribers e) (daily_growth_pct e)
    (weekly_growth_pct e) (daily_rank e) (weekly_rank e) (size_filter e)
    n (composite_score e).

Definition set_daily_rank (r : Z) (e : SubredditScore) : SubredditScore :=
  mkSubredditScore (name e) (subscribers e) (daily_growth_pct e)
    (weekly_growth_pct e) (Some r) (weekly_rank e) (size_filter e)
    (appearances e) (composite_score e).

Definition set_weekly_rank (r : Z) (e : SubredditScore) : SubredditScore :=
  mkSubredditScore (name e) (subscribers e) (daily_growth_pct e)
    (weekly_growth_pct e) (daily_rank e) (Some r) (size_filter e)
    (appearances e) (composite_score e).

Definition set_daily_growth_pct (g : Q) (e : SubredditScore)
    : SubredditScore :=
  mkSubredditScore (name e) (subscribers e) g
    (weekly_growth_pct e) (daily_rank e) (weekly_rank e) (size_filter e)
    (appearances e) (composite_score e).

Definition set_weekly_growth_pct (g : Q) (e : SubredditScore)
    : SubredditScore :=
  mkSubredditScore (name e) (subscribers e) (daily_growth_pct e)
    g (daily_rank e) (weekly_rank e) (size_filter e)
    (appearances e) (composite_score e).

Definition set_composite_score (s : Q) (e : SubredditScore) : SubredditScore :=
  mkSubredditScore (name e) (subscribers e) (daily_growth_pct e)
    (weekly_growth_pct e) (daily_rank e) (weekly_rank e) (size_filter e)
    (appearances e) s.

(** [rank_slot is None or rank < rank_slot] *)
Definition improves (rank : Z) (slot : option Z) : bool :=
  match slot with
  | None => true
  | Some r => rank <? r
  end.

(** Lines 130-149: what one sighting does to the entry of its name. *)
Definition sighting (sort_by : string) (rank : Z) (sub : raw_record)
    (entry : SubredditScore) : SubredditScore :=
  let entry := set_appearances (appearances entry + 1) entry in
  let entry :=
    if decide (sort_by = "daily") then
      if improves rank (daily_rank entry)
      then set_daily_rank rank entry else entry
    else
      if improves rank (weekly_rank entry)
      then set_weekly_rank rank entry else entry in
  let entry :=
    set_daily_growth_pct
      (Qmax (daily_growth_pct entry)
            (growth_or_0 (dailyGrowthPercentage sub))) entry in
  set_weekly_growth_pct
    (Qmax (weekly_growth_pct entry)
          (growth_or_0 (weeklyGrowthPercentage sub))) entry.

(** Lines 120-128: create the entry of a name seen for the first time. *)
Definition ensure_entry (st : agg_state) (size_filter : string)
    (nm : string) (sub : raw_record) : agg_state :=
  match dict_get nm (subreddit_data st) with
  | Some _ => st
  | None =>
      {| subreddit_data :=
           subreddit_data st ++ [(nm, new_entry nm sub size_filter)];
         by_size_category :=
           <[size_filter := (by_size_category st !!! size_filter) ++ [nm]]>
             (by_size_category st) |}
  end.

(** The body of the loop over the records of one result list. *)
Definition process_record (st : agg_state) (size_filter sort_by : string)
    (rank : Z) (sub : raw_record) : agg_state :=
  let nm := default "" (displayName sub) in
  if decide (nm = "") then st
  else if is_nsfw sub then st
  else
    let st := ensure_entry st size_filter nm sub in
    {| subreddit_data := dict_alter (sighting sort_by rank sub) nm
                           (subreddit_data st);
       by_size_category := by_size_category st |}.

(** [for rank, sub in enumerate(results)], from index [rank] on.  An element
    that is not a mapping has no [.get]: the loop raises. *)
Fixpoint process_results (st : agg_state) (size_filter sort_by : string)
    (rank : Z) (results : list item) : result agg_state :=
  match results with
  | [] => ret st
  | Mapping sub :: rest =>
      process_results (process_record st size_filter sort_by rank sub)
        size_filter sort_by (rank + 1) rest
  | NotMapping :: _ => raise AttributeError
  end.

(** One turn of the inner loop: the fetch under [try], then the records. *)
Definition run_query (requests_get : network) (st : agg_state)
    (size_filter sort_by : string) : result agg_state :=
  match fetch_subreddits requests_get size_filter sort_by with
  | inl _ => ret st                     (* except Exception: warn; continue *)
  | inr results => process_results st size_filter sort_by 0 results
  end.

Fixpoint for_sort_periods (requests_get : network) (st : agg_state)
    (size_filter : string) (periods : list string) : result agg_state :=
  match periods with
  | [] => ret st
  | sort_by :: rest =>
      do st' <- run_query requests_get st size_filter sort_by;
      for_sort_periods requests_get st' size_filter rest
  end.

Fixpoint for_size_filters (requests_get : network) (st : agg_state)
    (filters : list string) : result agg_state :=
  match filters with
  | [] => ret st
  | size_filter :: rest =>
      do st' <- for_sort_periods requests_get st size_filter SORT_PERIODS;
      for_size_filters requests_get st' rest
  end.

Definition aggregate (requests_get : network) : result agg_state :=
  for_size_filters requests_get initial SIZE_FILTERS.

End Aggregator.

(** ** Selector *)

Module Selector.
Import Aggregator.

(** [sorted(l, key=key, reverse=True)].  Python's sort is stable, also under
    [reverse=True]: the result is the one list that is a permutation of [l],
    non-increasing in [key], with equal keys in their order of [l].  An
    insertion sort that puts an element in front of the first one whose key
    is not strictly greater computes it. *)
Fixpoint insert_desc {A} (key : A -> Q) (x : A) (l : list A) : list A :=
  match l with
  | [] => [x]
  | y :: l' =>
      match Qcompare (key x) (key y) with
      | Lt => y :: insert_desc key x l'
      | _ => x :: y :: l'
      end
  end.

Fixpoint sorted_desc {A} (key : A -> Q) (l : list A) : list A :=
  match l with
  | [] => []
  | x :: l' => insert_desc key x (sorted_desc key l')
  end.

(** Lines 152-153: the scoring pass over [subreddit_data.values()]. *)
Definition score_all (data : list (string * SubredditScore))
    : list (string * SubredditScore) :=
  map (fun kv => (kv.1,
         set_composite_score (Scorer.calculate_composite_score kv.2) kv.2))
      data.

(** [subreddit_data[n].composite_score]; every name met here is a key (lemma
    [scored_category_keys]), so the [KeyError] branch is never taken. *)
Definition score_of (data : list (string * SubredditScore)) (n : string) : Q :=
  match dict_get n data with
  | Some entry => composite_score entry
  | None => 0%Q
  end.

Record selection : Type := mkSelection {
  selected : gset string;
  final_list : list (string * Q)
}.

(** [selected.add(nm); final_list.append((nm, score))] *)
Definition select (nm : string) (score : Q) (sel : selection) : selection :=
  {| selected := {[nm]} ∪ selected sel;
     final_list := final_list sel ++ [(nm, score)] |}.

(** Lines 169-172: the loop over the first names of a sorted category. *)
Fixpoint take_names (data : list (string * SubredditScore))
    (sel : selection) (names : list string) : selection :=
  match names with
  | [] => sel
  | nm :: rest =>
      if decide (nm ∈ selected sel) then take_names data sel rest
      else take_names data (select nm (score_of data nm) sel) rest
  end.

(** Lines 161-172: one turn of the loop over the size filters. *)
Definition take_category (data : list (string * SubredditScore))
    (by_size : gmap string (list string)) (sel : selection)
    (size_filter : string) : selection :=
  let category_subs := by_size !!! size_filter in
  let sorted_category := sorted_desc (score_of data) category_subs in
  take_names data sel (take TOP_PER_SIZE_CATEGORY sorted_category).

Fixpoint phase1_from (data : list (string * SubredditScore))
    (by_size : gmap string (list string)) (sel : selection)
    (filters : list string) : selection :=
  match filters with
  | [] => sel
  | size_filter :: rest =>
      phase1_from data by_size (take_category data by_size sel size_filter)
        rest
  end.

Definition phase1 (data : list (string * SubredditScore))
    (by_size : gmap string (list string)) : selection :=
  phase1_from data by_size {| selected := ∅; final_list := [] |} SIZE_FILTERS.

(** Lines 182-187: the loop over all entries, with its [break]. *)
Fixpoint fill (sel : selection) (entries : list SubredditScore) : selection :=
  match entries with
  | [] => sel
  | entry :: rest =>
      if decide (name entry ∈ selected sel) then fill sel rest
      else
        let sel := select (name entry) (composite_score entry) sel in
        if (FINAL_OUTPUT_LIMIT <=? length (final_list sel))%nat then sel
        else fill sel rest
  end.

(** Lines 175-187. *)
Definition phase2 (data : list (string * SubredditScore)) (sel : selection)
    : selection :=
  let remaining_slots :=
    Z.of_nat FINAL_OUTPUT_LIMIT - Z.of_nat (length (final_list sel)) in
  if 0 <? remaining_slots then
    let all_sorted := sorted_desc composite_score (dict_values data) in
    fill sel all_sorted
  else sel.

(** Lines 151-192, from the aggregated state on. *)
Definition blend (st : agg_state) : list string :=
  let data := score_all (subreddit_data st) in
  let sel := phase1 data (by_size_category st) in
  let sel := phase2 data sel in
  let final_list := sorted_desc snd (final_list sel) in
  map fst final_list.

End Selector.

(** ** The whole run *)

Import Fetcher Aggregator Selector.

Definition generate_blended_trending (requests_get : network)
    : result (list string) :=
  do st <- aggregate requests_get;
  ret (blend st).

(** ** What the run has observed *)

(** The result list a query contributes: its records, or nothing when the
    fetch raised. *)
Definition results_or_empty (requests_get : network)
    (size_filter sort_by : string) : list item :=
  match fetch_subreddits requests_get size_filter sort_by with
  | inl _ => []
  | inr results => results
  end.

(** All result lists, in query order. *)
Definition all_results (requests_get : network) : list item :=
  concat (map (fun size_filter =>
    concat (map (results_or_empty requests_get size_filter) SORT_PERIODS))
    SIZE_FILTERS).

Definition mappings (items : list item) : list raw_record :=
  omap (fun it => match it with
                  | Mapping sub => Some sub
                  | NotMapping => None
                  end) items.

Definition record_name (sub : raw_record) : string :=
  default "" (displayName sub).

(** A record that passes both [continue] guards. *)
Definition qualifying (sub : raw_record) : bool :=
  negb (bool_decide (record_name sub = "")) && negb (is_nsfw sub).

(** Names of the qualifying records, one per occurrence. *)
Definition observed_names (subs : list raw_record) : list string :=
  map record_name (filter (fun sub => Is_true (qualifying sub)) subs).

(** Number of qualifying occurrences that bear the name [nm]. *)
Definition sightings (nm : string) (subs : list raw_record) : nat :=
  length (filter (fun n => n = nm) (observed_names subs)).

(** The states aggregation passes through, each with the records processed
    to reach it.  Size filter, sort period and rank of a step are left
    free, so the states of the actual loops are among them (lemma
    [aggregate_reaches]). *)
Inductive reaches : list raw_record -> agg_state -> Prop :=
  | reaches_initial : reaches [] initial
  | reaches_record seen st size_filter sort_by rank sub :
      reaches seen st ->
      reaches (seen ++ [sub])
              (process_record st size_filter sort_by rank sub).

(** [new] is no worse a rank than [old]: a recorded rank stays recorded and
    does not grow. *)
Definition rank_not_worse (new old : option Z) : Prop :=
  match old, new with
  | None, _ => True
  | Some o, Some n => n <= o
  | Some _, None => False
  end.

(** The name [n] has an entry whose [size_filter] is [category]. *)
Definition recorded_under (data : list (string * SubredditScore))
    (category : string) (n : string) : bool :=
  match dict_get n data with
  | Some entry => bool_decide (size_filter entry = category)
  | None => false
  end.

Definition count_recorded_under (data : list (string * SubredditScore))
    (category : string) (out : list string) : nat :=
  length (filter (fun n => Is_true (recorded_under data category n)) out).

(** The first names of every category, as Phase 1 would take them if its
    membership test never fired. *)
Definition category_heads (data : list (string * SubredditScore))
    (by_size : gmap string (list string)) (filters : list string)
    : list string :=
  concat (map (fun size_filter =>
    take TOP_PER_SIZE_CATEGORY
      (sorted_desc (score_of data) (by_size !!! size_filter))) filters).

(** The shape every aggregation state has: one entry per key, stored under
    its own name, and each category list is the keys of the entries created
    under that size filter, in insertion order. *)
Definition well_formed (st : agg_state) : Prop :=
  NoDup (dict_keys (subreddit_data st))
  /\ (forall k e, (k, e) ∈ subreddit_data st -> name e = k)
  /\ (forall category,
        by_size_category st !!! category
        = dict_keys (filter (fun kv => size_filter kv.2 = category)
                            (subreddit_data st))).

(** The map as the selector reads it, after the scoring pass. *)
Definition scored (st : agg_state) : list (string * SubredditScore) :=
  score_all (subreddit_data st).

(** Non-increasing in [key], neighbour by neighbour. *)
Definition descending {A} (key : A -> Q) (l : list A) : Prop :=
  Sorted (fun a b => (key b <= key a)%Q) l.

(** What holds of the selection at every point of both phases: names are
    listed once, the set mirrors the list, every pair carries the score of
    its name, and every name is a key of the map. *)
Definition selection_ok (data : list (string * SubredditScore))
    (sel : selection) : Prop :=
  NoDup (final_list sel).*1
  /\ (forall n, n ∈ selected sel <-> n ∈ (final_list sel).*1)
  /\ (forall n s, (n, s) ∈ final_list sel -> s = score_of data n)
  /\ (forall n, n ∈ (final_list sel).*1 -> n ∈ dict_keys data).

(** ** Sample inputs *)

Module Samples.

Definition record (nm : string) (daily weekly : Q) : raw_record :=
  {| displayName := Some nm; raw_subscribers := Some 1000;
     dailyGrowthPercentage := Some daily;
     weeklyGrowthPercentage := Some weekly;
     isNsfw := Some false; internal_IsNsfw := None;
     suggested_Internal_IsNsfw := None |}.

Definition nsfw_record (nm : string) : raw_record :=
  {| displayName := Some nm; raw_subscribers := Some 1000;
     dailyGrowthPercentage := Some 900%Q;
     weeklyGrowthPercentage := Some 900%Q;
     isNsfw := None; internal_IsNsfw := Some true;
     suggested_Internal_IsNsfw := None |}.

Definition ok (items : list item) : result response :=
  ret {| status_ok := true; body := Some (JsonObject (Some items)) |}.

(** Status 200 with a body that is not JSON. *)
Definition not_json : result response :=
  ret {| status_ok := true; body := None |}.

(** Every query fails in transport. *)
Definition all_down : network := fun _ _ => raise ConnectionError.

(** The scenario of the specification: (medium, daily) answers with two
    records, every other query fails. *)
Definition medium_daily_only : network := fun size_filter sort_by =>
  if decide (size_filter = "medium" /\ sort_by = "daily")
  then ok [Mapping (record "a" 50 0); Mapping (record "b" 10 0)]
  else raise ConnectionError.

(** As above, but the first query, (medium-small, daily), is answered with
    status 200 and a body that does not parse. *)
Definition unparsable_first : network := fun size_filter sort_by =>
  if decide (size_filter = "medium-small" /\ sort_by = "daily")
  then not_json
  else medium_daily_only size_filter sort_by.

(** (large, weekly) answers with a list whose second element is no object. *)
Definition stray_element : network := fun size_filter sort_by =>
  if decide (size_filter = "large" /\ sort_by = "weekly")
  then ok [Mapping (record "a" 50 0); NotMapping]
  else medium_daily_only size_filter sort_by.

(** One page lists the same name twice. *)
Definition repeated_name : network := fun size_filter sort_by =>
  if decide (size_filter = "medium" /\ sort_by = "daily")
  then ok [Mapping (record "a" 50 0); Mapping (record "a" 10 0)]
  else raise ConnectionError.

(** The state after one sighting of "a" at rank 3 of (medium, daily). *)
Definition seen_state : agg_state :=
  process_record initial "medium" "daily" 3 (record "a" 50 0).

Definition seen_entry : SubredditScore :=
  sighting "daily" 3 (record "a" 50 0)
    (new_entry "a" (record "a" 50 0) "medium").

(** The state a run ends in, when it completes. *)
Definition state_of (requests_get : network) : agg_state :=
  match aggregate requests_get with
  | inr st => st
  | inl _ => initial
  end.

Definition output_of (requests_get : network) : list string :=
  match generate_blended_trending requests_get with
  | inr out => out
  | inl _ => []
  end.

(** Both periods at rank 0, but daily growth of -30 percent. *)
Definition shrinking : SubredditScore :=
  {| name := "a"; subscribers := 0;
     daily_growth_pct := (-30)%Q; weekly_growth_pct := 0%Q;
     daily_rank := Some 0; weekly_rank := Some 0;
     size_filter := "medium"; appearances := 2; composite_score := 0%Q |}.

(** Six names per size filter, the same page for both periods. *)
Definition page (size_filter : string) : list item :=
  map (fun i => Mapping (record (size_filter +:+ "-" +:+ i) 10 10))
      ["1"; "2"; "3"; "4"; "5"; "6"].

Definition six_each : network := fun size_filter _ => ok (page size_filter).

End Samples.

(** ** The sightings of a run, one by one *)

(** One turn of the innermost loop: the query it belongs to, the index
    [enumerate] gave the element, and the element. *)
Record event : Type := mkEvent {
  ev_size_filter : string;
  ev_sort_by : string;
  ev_rank : Z;
  ev_sub : raw_record
}.

(** [enumerate(subs)], counting from [rank], within the query [(sf, sb)]. *)
Fixpoint enumerate_from (size_filter sort_by : string) (rank : Z)
    (subs : list raw_record) : list event :=
  match subs with
  | [] => []
  | sub :: rest =>
      mkEvent size_filter sort_by rank sub
      :: enumerate_from size_filter sort_by (rank + 1) rest
  end.

Definition query_events (requests_get : network)
    (size_filter sort_by : string) : list event :=
  enumerate_from size_filter sort_by 0
    (mappings (results_or_empty requests_get size_filter sort_by)).

(** Every turn of the innermost loop, in the order of the three loops. *)
Definition all_events (requests_get : network) : list event :=
  concat (map (fun size_filter =>
    concat (map (query_events requests_get size_filter) SORT_PERIODS))
    SIZE_FILTERS).

Definition apply_event (st : agg_state) (ev : event) : agg_state :=
  process_record st (ev_size_filter ev) (ev_sort_by ev) (ev_rank ev)
    (ev_sub ev).

Definition replay (evs : list event) : agg_state :=
  foldl apply_event initial evs.

(** The event is a sighting of the name [nm]: its record passes both
    guards and bears that name. *)
Definition sights (nm : string) (ev : event) : Prop :=
  qualifying (ev_sub ev) = true /\ record_name (ev_sub ev) = nm.

(** The sightings of [nm] among the events, in order. *)
Definition events_of (nm : string) (evs : list event) : list event :=
  filter (fun ev =>
            qualifying (ev_sub ev) = true /\ record_name (ev_sub ev) = nm)
         evs.

(** [sighting] as a step of a fold over events. *)
Definition sight (e : SubredditScore) (ev : event) : SubredditScore :=
  sighting (ev_sort_by ev) (ev_rank ev) (ev_sub ev) e.

(** The entry a name gets from its own sightings, in order: created from
    the first, updated by each. *)
Definition entry_from (nm : string) (occ : list event)
    : option SubredditScore :=
  match occ with
  | [] => None
  | first :: _ =>
      Some (foldl sight
                  (new_entry nm (ev_sub first) (ev_size_filter first)) occ)
  end.


(** Every queried result list holds mappings only. *)
Definition well_typed (requests_get : network) : Prop :=
  forall sf sb, sf ∈ SIZE_FILTERS -> sb ∈ SORT_PERIODS ->
    NotMapping ∉ results_or_empty requests_get sf sb.

Module MoreSamples.
Import Samples.

(** "a" is third of (medium, daily), first of (large, daily) behind an
    NSFW record, and second of (medium, weekly). *)
Definition crossing : network := fun size_filter sort_by =>
  if decide (size_filter = "medium" /\ sort_by = "daily")
  then ok [Mapping (record "b" 5 1); Mapping (record "c" 7 2);
           Mapping (record "a" 50 0)]
  else if decide (size_filter = "medium" /\ sort_by = "weekly")
  then ok [Mapping (record "c" 7 2); Mapping (record "a" 20 90)]
  else if decide (size_filter = "large" /\ sort_by = "daily")
  then ok [Mapping (nsfw_record "z"); Mapping (record "a" 30 10)]
  else raise HTTPError.

(** Ten names per size filter, the daily page only: forty names. *)
Definition big_page (size_filter : string) : list item :=
  map (fun i => Mapping (record (size_filter +:+ "-" +:+ i.1) i.2 0))
      [("0", 1%Q); ("1", 2%Q); ("2", 3%Q); ("3", 4%Q); ("4", 5%Q);
       ("5", 6%Q); ("6", 7%Q); ("7", 8%Q); ("8", 9%Q); ("9", 10%Q)].

Definition ten_each : network := fun size_filter sort_by =>
  if decide (sort_by = "daily") then ok (big_page size_filter)
  else raise ConnectionError.

(** The entry a completed run holds for a name. *)
Definition entry_of (requests_get : network) (nm : string)
    : SubredditScore :=
  match dict_get nm (subreddit_data (state_of requests_get)) with
  | Some e => e
  | None => new_entry nm (record nm 0 0) ""
  end.




(** "a" at the head of (medium, daily), and at index 25 of it. *)
Definition at_rank (r : Z) : SubredditScore :=
  {| name := "a"; subscribers := 0;
     daily_growth_pct := 0%Q; weekly_growth_pct := 0%Q;
     daily_rank := Some r; weekly_rank := None;
     size_filter := "medium"; appearances := 1; composite_score := 0%Q |}.

Definition unranked : SubredditScore :=
  {| name := "a"; subscribers := 0;
     daily_growth_pct := 0%Q; weekly_growth_pct := 0%Q;
     daily_rank := None; weekly_rank := None;
     size_filter := "medium"; appearances := 1; composite_score := 0%Q |}.

(** Growth far beyond both caps. *)
Definition booming : SubredditScore :=
  {| name := "a"; subscribers := 0;
     daily_growth_pct := 250%Q; weekly_growth_pct := 900%Q;
     daily_rank := Some 3; weekly_rank := None;
     size_filter := "medium"; appearances := 1; composite_score := 0%Q |}.

(** Status 500 with a body that would have parsed. *)
Definition failing_status : network := fun _ _ =>
  ret {| status_ok := false;
         body := Some (JsonObject (Some [Mapping (record "a" 50 0)])) |}.

(** Status 200, a JSON object without the key ["subreddits"]. *)
Definition no_key : network := fun _ _ =>
  ret {| status_ok := true; body := Some (JsonObject None) |}.

End MoreSamples.

(** * The script in Python's own numbers

    The model above idealises [float] as [Q] and types every leaf of the
    response.  What follows models the same source once more, keeping what
    that idealisation drops: binary64 rounding, NaN and the infinities
    ([json] reads the literals [NaN] and [Infinity]); [int] beside [float]
    as the two types a JSON number parses to; a key that holds [null]; a
    value under ["subreddits"] that cannot be enumerated; and the
    exceptions that arise after the fetch has returned. *)

(** ** binary64 *)

Module Binary64.

(** IEEE 754 binary64 by its specification in [SpecFloat]: 53 bits of
    precision, round to nearest even, one NaN. *)
Definition prec : Z := 53.
Definition emax : Z := 1024.

Definition fadd : spec_float -> spec_float -> spec_float := SFadd prec emax.
Definition fdiv : spec_float -> spec_float -> spec_float := SFdiv prec emax.

Definition is_nan (f : spec_float) : bool :=
  match f with
  | S754_nan => true
  | _ => false
  end.

Definition is_inf (f : spec_float) : bool :=
  match f with
  | S754_infinity _ => true
  | _ => false
  end.

(** The sign bit is clear, or the value is NaN. *)
Definition sign_clear (f : spec_float) : Prop :=
  match f with
  | S754_zero s | S754_infinity s | S754_finite s _ _ => s = false
  | S754_nan => True
  end.

(** An [int] as the exact, unrounded operand of a division. *)
Definition exact_int (z : Z) : spec_float :=
  match z with
  | Z0 => S754_zero false
  | Zpos p => S754_finite false p 0
  | Zneg p => S754_finite true p 0
  end.

(** [float(z)]: the nearest double, an infinity where Python raises. *)
Definition round_int (z : Z) : spec_float :=
  binary_normalize prec emax z 0 false.

(** The double nearest to [n / 10^k]: what a decimal literal parses to. *)
Definition decimal (n : Z) (k : nat) : spec_float :=
  fdiv (exact_int n) (exact_int (10 ^ Z.of_nat k)).

End Binary64.

(** ** The script *)

Module Py.
Import Binary64.

Inductive exn : Type :=
  | ConnectionError   (* raised by [requests.get]: transport, timeout   *)
  | HTTPError         (* raised by [response.raise_for_status]          *)
  | JSONDecodeError   (* raised by [response.json]                      *)
  | AttributeError    (* [.get] on a value that is not a mapping        *)
  | TypeError         (* [enumerate] of a value that is not iterable    *)
  | OverflowError.    (* an [int] too large to become a [float]         *)

Definition result (A : Type) : Type := (exn + A)%type.
Definition ret {A} (a : A) : result A := inr a.
Definition raise {A} (e : exn) : result A := inl e.
Definition bind {A B} (m : result A) (k : A -> result B) : result B :=
  match m with
  | inl e => inl e
  | inr a => k a
  end.

Notation "'doing' x <- m ; k" := (bind m (fun x => k))
  (at level 10, x name, m at level 100, k at level 200).

(** *** Numbers *)

(** A JSON number parses to an [int] or to a [float]. *)
Inductive number : Type :=
  | Int (z : Z)
  | Float (f : spec_float).

(** [bool(x)]: zero of either type is falsy, NaN is truthy. *)
Definition truthy (x : number) : bool :=
  match x with
  | Int z => negb (z =? 0)
  | Float (S754_zero _) => false
  | Float _ => true
  end.

(** Python compares an [int] with a [float] by their exact values. *)
Definition compare_int_float (z : Z) (f : spec_float) : option comparison :=
  match f with
  | S754_nan => None
  | S754_infinity s => Some (if s then Gt else Lt)
  | S754_zero _ => Some (z ?= 0)
  | S754_finite s m e =>
      let v := if s then Zneg m else Zpos m in
      Some (if 0 <=? e then z ?= v * 2 ^ e else z * 2 ^ (- e) ?= v)
  end.

(** [x < y] *)
Definition lt (x y : number) : bool :=
  match x, y with
  | Int a, Int b => a <? b
  | Float a, Float b => SFltb a b
  | Int a, Float b =>
      match compare_int_float a b with Some Lt => true | _ => false end
  | Float a, Int b =>
      match compare_int_float b a with Some Gt => true | _ => false end
  end.

(** [max(x, y)] keeps [x] unless [y > x]; [min(x, y)] keeps [x] unless
    [y < x]. *)
Definition max (x y : number) : number := if lt x y then y else x.
Definition min (x y : number) : number := if lt y x then y else x.

(** [x / k] for an [int] literal [k] other than 0.  Between two [int]s the
    exact quotient is rounded once and a quotient too large for a [float]
    raises; a [float] is divided by [float(k)]. *)
Definition truediv (x : number) (k : Z) : result spec_float :=
  match x with
  | Int z =>
      let q := fdiv (exact_int z) (exact_int k) in
      if is_inf q then raise OverflowError else ret q
  | Float f => ret (fdiv f (round_int k))
  end.

(** [score + n] for a [float] and an [int]: the [int] becomes a [float]
    first, which raises when it is too large. *)
Definition add_int (score : spec_float) (n : Z) : result spec_float :=
  let f := round_int n in
  if is_inf f then raise OverflowError else ret (fadd score f).

(** *** Data model *)

(** A key of a JSON object: missing, holding [null], or holding a value. *)
Inductive field (A : Type) : Type :=
  | Absent
  | Null
  | Value (a : A).
Arguments Absent {A}.
Arguments Null {A}.
Arguments Value {A} a.

(** One JSON object of the ["subreddits"] array.  A value that is present
    has the type the dataclass gives the field it feeds. *)
Record raw_record : Type := mkRaw {
  displayName : field string;
  raw_subscribers : field Z;
  dailyGrowthPercentage : field number;
  weeklyGrowthPercentage : field number;
  isNsfw : field bool;
  internal_IsNsfw : field bool;
  suggested_Internal_IsNsfw : field bool
}.

(** The dataclass [SubredditScore]; [subscribers] is [None] when the record
    that created the entry held [null] there. *)
Record SubredditScore : Type := mkSubredditScore {
  name : string;
  subscribers : option Z;
  daily_growth_pct : number;
  weekly_growth_pct : number;
  daily_rank : option Z;
  weekly_rank : option Z;
  size_filter : string;
  appearances : Z;
  composite_score : spec_float
}.

(** *** Scorer *)

(** [calculate_composite_score], statement by statement. *)
Definition calculate_composite_score (sub : SubredditScore)
    : result spec_float :=
  let score := S754_zero false in
  doing score <-
    match daily_rank sub with
    | Some r => add_int score (Z.max 0 (RESULTS_PER_QUERY - r))
    | None => ret score
    end;
  doing score <-
    match weekly_rank sub with
    | Some r => add_int score (Z.max 0 (RESULTS_PER_QUERY - r))
    | None => ret score
    end;
  doing score <-
    if 2 <=? appearances sub
    then add_int score (15 * (appearances sub - 1))
    else ret score;
  doing daily_contrib <- truediv (min (daily_growth_pct sub) (Int 100)) 10;
  doing weekly_contrib <- truediv (min (weekly_growth_pct sub) (Int 500)) 50;
  ret (fadd score (fadd daily_contrib weekly_contrib)).

(** The formula as the specification words it: five terms added to the
    score one after the other. *)
Definition position_points (rank : option Z) : Z :=
  match rank with
  | Some r => Z.max 0 (20 - r)
  | None => 0
  end.

Definition appearance_bonus (n : Z) : Z :=
  if 2 <=? n then 15 * (n - 1) else 0.

Definition term_by_term (sub : SubredditScore) : result spec_float :=
  let score := S754_zero false in
  doing score <- add_int score (position_points (daily_rank sub));
  doing score <- add_int score (position_points (weekly_rank sub));
  doing score <- add_int score (appearance_bonus (appearances sub));
  doing daily <- truediv (min (daily_growth_pct sub) (Int 100)) 10;
  doing weekly <- truediv (min (weekly_growth_pct sub) (Int 500)) 50;
  ret (fadd (fadd score daily) weekly).

(** The same five terms, the two growth terms added to each other before
    their sum is added to the points. *)
Definition points (sub : SubredditScore) : result spec_float :=
  doing score <- add_int (S754_zero false) (position_points (daily_rank sub));
  doing score <- add_int score (position_points (weekly_rank sub));
  add_int score (appearance_bonus (appearances sub)).

Definition growth_first (sub : SubredditScore) : result spec_float :=
  doing score <- points sub;
  doing daily <- truediv (min (daily_growth_pct sub) (Int 100)) 10;
  doing weekly <- truediv (min (weekly_growth_pct sub) (Int 500)) 50;
  ret (fadd score (fadd daily weekly)).

(** *** Fetcher *)

(** An element of the list: a JSON object, or anything else. *)
Inductive item : Type :=
  | Mapping (sub : raw_record)
  | NotMapping.

(** The value under ["subreddits"]: what [enumerate] walks through, or a
    value it refuses ([null], a number, a boolean).  A string walks through
    its characters and an object through its keys, none of them a mapping:
    they read as lists of [NotMapping]. *)
Inductive fetched : Type :=
  | Items (items : list item)
  | NotIterable.

(** A decoded body: an object, with or without the key ["subreddits"], or a
    JSON value that is not an object. *)
Inductive json_data : Type :=
  | JsonObject (subreddits : option fetched)
  | JsonOther.

Record response : Type := mkResponse {
  status_ok : bool;
  body : option json_data
}.

Definition network : Type := string -> string -> result response.

Definition raise_for_status (r : response) : result unit :=
  if status_ok r then ret tt else raise HTTPError.

Definition json (r : response) : result json_data :=
  match body r with
  | Some data => ret data
  | None => raise JSONDecodeError
  end.

(** [data.get("subreddits", [])] *)
Definition get_subreddits (data : json_data) : result fetched :=
  match data with
  | JsonObject (Some v) => ret v
  | JsonObject None => ret (Items [])
  | JsonOther => raise AttributeError
  end.

Definition fetch_subreddits (requests_get : network)
    (size_filter sort_by : string) : result fetched :=
  doing response <- requests_get size_filter sort_by;
  doing checked <- raise_for_status response;
  doing data <- json response;
  get_subreddits data.

(** *** Aggregator *)

Record agg_state : Type := mkState {
  subreddit_data : list (string * SubredditScore);
  by_size_category : gmap string (list string)
}.

Definition initial : agg_state :=
  {| subreddit_data := []; by_size_category := ∅ |}.

(** [sub.get("displayName", "")], when it is truthy. *)
Definition read_name (sub : raw_record) : option string :=
  match displayName sub with
  | Value nm => if decide (nm = "") then None else Some nm
  | _ => None
  end.

Definition flag (f : field bool) : bool :=
  match f with
  | Value true => true
  | _ => false
  end.

Definition is_nsfw (sub : raw_record) : bool :=
  flag (isNsfw sub)
  || flag (internal_IsNsfw sub)
  || flag (suggested_Internal_IsNsfw sub).

(** [sub.get(key, 0) or 0] *)
Definition or_0 (v : field number) : number :=
  match v with
  | Value x => if truthy x then x else Int 0
  | _ => Int 0
  end.

(** [sub.get("subscribers", 0)] *)
Definition read_subscribers (v : field Z) : option Z :=
  match v with
  | Absent => Some 0
  | Null => None
  | Value z => Some z
  end.

Definition new_entry (nm : string) (sub : raw_record) (size_filter : string)
    : SubredditScore :=
  {| name := nm;
     subscribers := read_subscribers (raw_subscribers sub);
     daily_growth_pct := or_0 (dailyGrowthPercentage sub);
     weekly_growth_pct := or_0 (weeklyGrowthPercentage sub);
     daily_rank := None;
     weekly_rank := None;
     size_filter := size_filter;
     appearances := 0;
     composite_score := S754_zero false |}.

Definition set_appearances (n : Z) (e : SubredditScore) : SubredditScore :=
  mkSubredditScore (name e) (subscribers e) (daily_growth_pct e)
    (weekly_growth_pct e) (daily_rank e) (weekly_rank e) (size_filter e)
    n (composite_score e).

Definition set_daily_rank (r : Z) (e : SubredditScore) : SubredditScore :=
  mkSubredditScore (name e) (subscribers e) (daily_growth_pct e)
    (weekly_growth_pct e) (Some r) (weekly_rank e) (size_filter e)
    (appearances e) (composite_score e).

Definition set_weekly_rank (r : Z) (e : SubredditScore) : SubredditScore :=
  mkSubredditScore (name e) (subscribers e) (daily_growth_pct e)
    (weekly_growth_pct e) (daily_rank e) (Some r) (size_filter e)
    (appearances e) (composite_score e).

Definition set_daily_growth_pct (g : number) (e : SubredditScore)
    : SubredditScore :=
  mkSubredditScore (name e) (subscribers e) g
    (weekly_growth_pct e) (daily_rank e) (weekly_rank e) (size_filter e)
    (appearances e) (composite_score e).

Definition set_weekly_growth_pct (g : number) (e : SubredditScore)
    : SubredditScore :=
  mkSubredditScore (name e) (subscribers e) (daily_growth_pct e)
    g (daily_rank e) (weekly_rank e) (size_filter e)
    (appearances e) (composite_score e).

Definition set_composite_score (s : spec_float) (e : SubredditScore)
    : SubredditScore :=
  mkSubredditScore (name e) (subscribers e) (daily_growth_pct e)
    (weekly_growth_pct e) (daily_rank e) (weekly_rank e) (size_filter e)
    (appearances e) s.

(** [slot is None or rank < slot] *)
Definition improves (rank : Z) (slot : option Z) : bool :=
  match slot with
  | None => true
  | Some r => rank <? r
  end.

(** Lines 130-149. *)
Definition sighting (sort_by : string) (rank : Z) (sub : raw_record)
    (entry : SubredditScore) : SubredditScore :=
  let entry := set_appearances (appearances entry + 1) entry in
  let entry :=
    if decide (sort_by = "daily") then
      if improves rank (daily_rank entry)
      then set_daily_rank rank entry else entry
    else
      if improves rank (weekly_rank entry)
      then set_weekly_rank rank entry else entry in
  let entry :=
    set_daily_growth_pct
      (max (daily_growth_pct entry) (or_0 (dailyGrowthPercentage sub)))
      entry in
  set_weekly_growth_pct
    (max (weekly_growth_pct entry) (or_0 (weeklyGrowthPercentage sub)))
    entry.

(** Lines 120-128. *)
Definition ensure_entry (st : agg_state) (size_filter : string)
    (nm : string) (sub : raw_record) : agg_state :=
  match dict_get nm (subreddit_data st) with
  | Some _ => st
  | None =>
      {| subreddit_data :=
           subreddit_data st ++ [(nm, new_entry nm sub size_filter)];
         by_size_category :=
           <[size_filter := (by_size_category st !!! size_filter) ++ [nm]]>
             (by_size_category st) |}
  end.

(** The body of the loop over the records of one result list. *)
Definition process_record (st : agg_state) (size_filter sort_by : string)
    (rank : Z) (sub : raw_record) : agg_state :=
  match read_name sub with
  | None => st
  | Some nm =>
      if is_nsfw sub then st
      else
        let st := ensure_entry st size_filter nm sub in
        {| subreddit_data := dict_alter (sighting sort_by rank sub) nm
                               (subreddit_data st);
           by_size_category := by_size_category st |}
  end.

Fixpoint process_results (st : agg_state) (size_filter sort_by : string)
    (rank : Z) (results : list item) : result agg_state :=
  match results with
  | [] => ret st
  | Mapping sub :: rest =>
      process_results (process_record st size_filter sort_by rank sub)
        size_filter sort_by (rank + 1) rest
  | NotMapping :: _ => raise AttributeError
  end.

(** One turn of the inner loop: the fetch under [try]; then, outside it,
    [enumerate(results)] and the records. *)
Definition run_query (requests_get : network) (st : agg_state)
    (size_filter sort_by : string) : result agg_state :=
  match fetch_subreddits requests_get size_filter sort_by with
  | inl _ => ret st                     (* except Exception: warn; continue *)
  | inr NotIterable => raise TypeError
  | inr (Items results) => process_results st size_filter sort_by 0 results
  end.

Fixpoint for_sort_periods (requests_get : network) (st : agg_state)
    (size_filter : string) (periods : list string) : result agg_state :=
  match periods with
  | [] => ret st
  | sort_by :: rest =>
      doing st' <- run_query requests_get st size_filter sort_by;
      for_sort_periods requests_get st' size_filter rest
  end.

Fixpoint for_size_filters (requests_get : network) (st : agg_state)
    (filters : list string) : result agg_state :=
  match filters with
  | [] => ret st
  | size_filter :: rest =>
      doing st' <- for_sort_periods requests_get st size_filter SORT_PERIODS;
      for_size_filters requests_get st' rest
  end.

Definition aggregate (requests_get : network) : result agg_state :=
  for_size_filters requests_get initial SIZE_FILTERS.

(** *** Selector *)

(** [sorted(l, key=key, reverse=True)] on [float] keys.  Python sorts by
    [<] alone.  Where [<] orders the keys (no NaN among them) the result is
    the one stable arrangement, whatever the algorithm; this insertion
    sort, which moves an element past those its key is [<] than, computes
    it.  With a NaN among the keys every [<] on it is false and the result
    depends on which pairs are compared: the model compares as an
    insertion sort does, and agrees with CPython at least where no
    comparison it makes is true, the list then being left as it is. *)
Fixpoint insert_desc {A} (key : A -> spec_float) (x : A) (l : list A)
    : list A :=
  match l with
  | [] => [x]
  | y :: l' =>
      if SFltb (key x) (key y) then y :: insert_desc key x l'
      else x :: y :: l'
  end.

Fixpoint sorted_desc {A} (key : A -> spec_float) (l : list A) : list A :=
  match l with
  | [] => []
  | x :: l' => insert_desc key x (sorted_desc key l')
  end.

(** Lines 152-153: the scoring pass, entry after entry; the first score
    that raises ends it. *)
Fixpoint score_all (data : list (string * SubredditScore))
    : result (list (string * SubredditScore)) :=
  match data with
  | [] => ret []
  | (k, entry) :: rest =>
      doing score <- calculate_composite_score entry;
      doing rest' <- score_all rest;
      ret ((k, set_composite_score score entry) :: rest')
  end.

(** [subreddit_data[n].composite_score]; every name met here is a key. *)
Definition score_of (data : list (string * SubredditScore)) (n : string)
    : spec_float :=
  match dict_get n data with
  | Some entry => composite_score entry
  | None => S754_zero false
  end.

Record selection : Type := mkSelection {
  selected : gset string;
  final_list : list (string * spec_float)
}.

Definition select (nm : string) (score : spec_float) (sel : selection)
    : selection :=
  {| selected := {[nm]} ∪ selected sel;
     final_list := final_list sel ++ [(nm, score)] |}.

Fixpoint take_names (data : list (string * SubredditScore))
    (sel : selection) (names : list string) : selection :=
  match names with
  | [] => sel
  | nm :: rest =>
      if decide (nm ∈ selected sel) then take_names data sel rest
      else take_names data (select nm (score_of data nm) sel) rest
  end.

Definition take_category (data : list (string * SubredditScore))
    (by_size : gmap string (list string)) (sel : selection)
    (size_filter : string) : selection :=
  let category_subs := by_size !!! size_filter in
  let sorted_category := sorted_desc (score_of data) category_subs in
  take_names data sel (take TOP_PER_SIZE_CATEGORY sorted_category).

Fixpoint phase1_from (data : list (string * SubredditScore))
    (by_size : gmap string (list string)) (sel : selection)
    (filters : list string) : selection :=
  match filters with
  | [] => sel
  | size_filter :: rest =>
      phase1_from data by_size (take_category data by_size sel size_filter)
        rest
  end.

Definition phase1 (data : list (string * SubredditScore))
    (by_size : gmap string (list string)) : selection :=
  phase1_from data by_size {| selected := ∅; final_list := [] |} SIZE_FILTERS.

Fixpoint fill (sel : selection) (entries : list SubredditScore) : selection :=
  match entries with
  | [] => sel
  | entry :: rest =>
      if decide (name entry ∈ selected sel) then fill sel rest
      else
        let sel := select (name entry) (composite_score entry) sel in
        if (FINAL_OUTPUT_LIMIT <=? length (final_list sel))%nat then sel
        else fill sel rest
  end.

Definition phase2 (data : list (string * SubredditScore)) (sel : selection)
    : selection :=
  let remaining_slots :=
    Z.of_nat FINAL_OUTPUT_LIMIT - Z.of_nat (length (final_list sel)) in
  if 0 <? remaining_slots then
    let all_sorted := sorted_desc composite_score (dict_values data) in
    fill sel all_sorted
  else sel.

(** Lines 157-192, on the scored map. *)
Definition blend (data : list (string * SubredditScore))
    (by_size : gmap string (list string)) : list string :=
  let sel := phase1 data by_size in
  let sel := phase2 data sel in
  let final_list := sorted_desc snd (final_list sel) in
  map fst final_list.

(** *** The whole run *)

Definition generate_blended_trending (requests_get : network)
    : result (list string) :=
  doing st <- aggregate requests_get;
  doing data <- score_all (subreddit_data st);
  ret (blend data (by_size_category st)).

(** *** What the proofs speak of *)

(** What a query hands to the loops: the fetched value, or nothing when the
    fetch raised. *)
Definition fetched_or_empty (requests_get : network)
    (size_filter sort_by : string) : fetched :=
  match fetch_subreddits requests_get size_filter sort_by with
  | inl _ => Items []
  | inr v => v
  end.

(** The value makes the loops raise: it cannot be enumerated, or one of its
    elements is not a mapping. *)
Definition aborts (v : fetched) : Prop :=
  match v with
  | NotIterable => True
  | Items items => NotMapping ∈ items
  end.

(** The shape every aggregation state has. *)
Definition well_formed (st : agg_state) : Prop :=
  NoDup (dict_keys (subreddit_data st))
  /\ (forall k e, (k, e) ∈ subreddit_data st -> name e = k)
  /\ (forall category,
        by_size_category st !!! category
        = dict_keys (filter (fun kv => size_filter kv.2 = category)
                            (subreddit_data st))).

(** Non-increasing in [key] under [>=], neighbour by neighbour. *)
Definition descending {A} (key : A -> spec_float) (l : list A) : Prop :=
  Sorted (fun a b => SFleb (key b) (key a) = true) l.

Definition selection_ok (data : list (string * SubredditScore))
    (sel : selection) : Prop :=
  NoDup (final_list sel).*1
  /\ (forall n, n ∈ selected sel <-> n ∈ (final_list sel).*1)
  /\ (forall n s, (n, s) ∈ final_list sel -> s = score_of data n)
  /\ (forall n, n ∈ (final_list sel).*1 -> n ∈ dict_keys data).

(** No entry of the scored map has a NaN score. *)
Definition no_nan (data : list (string * SubredditScore)) : bool :=
  forallb (fun kv => negb (is_nan (composite_score kv.2))) data.

(** The first names of every category, as Phase 1 would take them if its
    membership test never fired. *)
Definition category_heads (data : list (string * SubredditScore))
    (by_size : gmap string (list string)) (filters : list string)
    : list string :=
  concat (map (fun size_filter =>
    take TOP_PER_SIZE_CATEGORY
      (sorted_desc (score_of data) (by_size !!! size_filter))) filters).

End Py.

(** ** Sample inputs in Python's numbers *)

Module PySamples.
Import Binary64 Py.

Definition record (nm : string) (daily weekly : number) : raw_record :=
  {| displayName := Value nm; raw_subscribers := Value 1000;
     dailyGrowthPercentage := Value daily;
     weeklyGrowthPercentage := Value weekly;
     isNsfw := Value false; internal_IsNsfw := Absent;
     suggested_Internal_IsNsfw := Null |}.

Definition ok (items : list item) : result response :=
  ret {| status_ok := true; body := Some (JsonObject (Some (Items items))) |}.

(** Status 200 with a body that is not JSON. *)
Definition not_json : result response :=
  ret {| status_ok := true; body := None |}.

(** Status 200 with the body [{"subreddits": null}]. *)
Definition null_list : result response :=
  ret {| status_ok := true; body := Some (JsonObject (Some NotIterable)) |}.

(** (medium, daily) answers with two records, every other query fails. *)
Definition medium_daily_only : network := fun size_filter sort_by =>
  if decide (size_filter = "medium" /\ sort_by = "daily")
  then ok [Mapping (record "a" (Int 50) (Int 0));
           Mapping (record "b" (Int 10) (Int 0))]
  else raise ConnectionError.

(** As above, but the first query is answered with a body that does not
    parse. *)
Definition unparsable_first : network := fun size_filter sort_by =>
  if decide (size_filter = "medium-small" /\ sort_by = "daily")
  then not_json
  else medium_daily_only size_filter sort_by.

(** As above, but (large, weekly) holds [null] under ["subreddits"]. *)
Definition null_later : network := fun size_filter sort_by =>
  if decide (size_filter = "large" /\ sort_by = "weekly")
  then null_list
  else medium_daily_only size_filter sort_by.

(** As above, but (large, weekly) lists an element that is no object. *)
Definition stray_element : network := fun size_filter sort_by =>
  if decide (size_filter = "large" /\ sort_by = "weekly")
  then ok [Mapping (record "a" (Int 50) (Int 0)); NotMapping]
  else medium_daily_only size_filter sort_by.

(** One record whose daily growth is the [int] -10^400. *)
Definition huge_growth : network := fun size_filter sort_by =>
  if decide (size_filter = "medium" /\ sort_by = "daily")
  then ok [Mapping (record "a" (Int (- 10 ^ 400)) (Int 0))]
  else raise ConnectionError.

(** One page: "a" shrinking by 10 percent, "n" with growth NaN, "b" growing
    by 70 percent. *)
Definition nan_page : network := fun size_filter sort_by =>
  if decide (size_filter = "medium" /\ sort_by = "daily")
  then ok [Mapping (record "a" (Int (-10)) (Int 0));
           Mapping (record "n" (Float S754_nan) (Int 0));
           Mapping (record "b" (Int 70) (Int 0))]
  else raise ConnectionError.

(** Ten names per size filter, the daily page only: forty names. *)
Definition big_page (size_filter : string) : list item :=
  map (fun i => Mapping (record (size_filter +:+ "-" +:+ i.1) (Int i.2)
                           (Int 0)))
      [("0", 1); ("1", 2); ("2", 3); ("3", 4); ("4", 5);
       ("5", 6); ("6", 7); ("7", 8); ("8", 9); ("9", 10)].

Definition ten_each : network := fun size_filter sort_by =>
  if decide (sort_by = "daily") then ok (big_page size_filter)
  else raise ConnectionError.

(** Rank 0 of the daily list only, growth 1.4 and 7.9 percent. *)
Definition fractional : SubredditScore :=
  {| name := "a"; subscribers := Some 0;
     daily_growth_pct := Float (decimal 14 1);
     weekly_growth_pct := Float (decimal 79 1);
     daily_rank := Some 0; weekly_rank := None;
     size_filter := "medium"; appearances := 1;
     composite_score := S754_zero false |}.

(** Rank 0 of both lists, two appearances, the given daily growth. *)
Definition top_with (daily : number) : SubredditScore :=
  {| name := "a"; subscribers := Some 0;
     daily_growth_pct := daily; weekly_growth_pct := Int 0;
     daily_rank := Some 0; weekly_rank := Some 0;
     size_filter := "medium"; appearances := 2;
     composite_score := S754_zero false |}.

Definition state_of (requests_get : network) : agg_state :=
  match aggregate requests_get with
  | inr st => st
  | inl _ => initial
  end.

Definition scored_of (requests_get : network)
  : list (string * SubredditScore) :=
  match score_all (subreddit_data (state_of requests_get)) with
  | inr data => data
  | inl _ => []
  end.

End PySamples.

(** Case analysis on the [break] test of Phase 2. *)
Ltac case_limit :=
  match goal with
  | |- context [Nat.leb ?a ?b] => destruct (Nat.leb a b)
  end.

(** A closed decidable proposition, settled by evaluation. *)
Ltac by_evaluation :=
  apply (bool_decide_unpack _); vm_compute; exact I.

(** * Properties *)

(** ** Scorer *)

Section ScorerFacts.
Import Scorer.
Local Open Scope Q_scope.

Lemma score_unfolds (sub : SubredditScore) :
  calculate_composite_score sub ==
    rank_and_appearance_points sub
    + (Qmin (daily_growth_pct sub) 100 / 10
       + Qmin (weekly_growth_pct sub) 500 / 50).
Proof.
  unfold calculate_composite_score, rank_and_appearance_points,
    position_points, appearance_bonus, RESULTS_PER_QUERY.
  destruct (daily_rank sub), (weekly_rank sub),
    (2 <=? appearances sub)%Z; ring.
Qed.


End ScorerFacts.

(** ** Dictionaries *)

Section DictFacts.
Context {V : Type}.
Implicit Types (d : list (string * V)) (k : string) (v : V).

Lemma dict_get_alter f k k' d :
  dict_get k' (dict_alter f k d)
  = if decide (k = k') then f <$> dict_get k d else dict_get k' d.
Proof.
  induction d as [|[k0 v0] d IH]; simpl.
  - by case_decide.
  - repeat (case_decide; simplify_eq/=); try done.
    all: rewrite IH; by case_decide.
Qed.

Lemma dict_get_app k d1 d2 :
  dict_get k (d1 ++ d2)
  = match dict_get k d1 with Some v => Some v | None => dict_get k d2 end.
Proof.
  induction d1 as [|[k0 v0] d1 IH]; simpl; [done|]. by case_decide.
Qed.

Lemma dict_alter_keys f k d : (dict_alter f k d).*1 = d.*1.
Proof.
  induction d as [|[k0 v0] d IH]; simpl; [done|].
  case_decide; csimpl; by f_equal.
Qed.

Lemma dict_get_None k d : dict_get k d = None <-> k ∉ d.*1.
Proof.
  induction d as [|[k0 v0] d IH]; simpl.
  - split; [intros _; apply not_elem_of_nil | done].
  - rewrite not_elem_of_cons. case_decide; intuition congruence.
Qed.

Lemma dict_get_is_Some k d : is_Some (dict_get k d) <-> k ∈ d.*1.
Proof.
  rewrite <- not_eq_None_Some, dict_get_None.
  destruct (decide (k ∈ d.*1)); naive_solver.
Qed.

Lemma dict_get_Some_elem k v d : dict_get k d = Some v -> (k, v) ∈ d.
Proof.
  induction d as [|[k0 v0] d IH]; simpl; [done|].
  case_decide; intros; simplify_eq; [left | right; auto].
Qed.

Lemma dict_get_elem k v d : NoDup d.*1 -> (k, v) ∈ d -> dict_get k d = Some v.
Proof.
  induction d as [|[k0 v0] d IH]; simpl.
  - intros _ H. by apply elem_of_nil in H.
  - rewrite NoDup_cons. intros [Hk Hd] [H|H]%elem_of_cons.
    + simplify_eq. by rewrite decide_True.
    + rewrite decide_False; [auto|].
      intros ->. apply Hk. apply list_elem_of_fmap. by exists (k, v).
Qed.

End DictFacts.

(** ** One record at a time *)

Section RecordFacts.
Implicit Types (st : agg_state) (sub : raw_record) (e : SubredditScore).

Lemma is_nsfw_flags sub :
  is_nsfw sub = true <->
  truthy (isNsfw sub) = true \/ truthy (internal_IsNsfw sub) = true
  \/ truthy (suggested_Internal_IsNsfw sub) = true.
Proof. unfold is_nsfw. rewrite !orb_true_iff. tauto. Qed.

Lemma qualifying_spec sub :
  qualifying sub = true <-> record_name sub <> "" /\ is_nsfw sub = false.
Proof.
  unfold qualifying.
  rewrite andb_true_iff, !negb_true_iff, bool_decide_eq_false. tauto.
Qed.

(** A record that does not qualify leaves the state as it is. *)
Lemma process_record_skip st sf sb rank sub :
  qualifying sub = false -> process_record st sf sb rank sub = st.
Proof.
  unfold qualifying, process_record, record_name.
  rewrite andb_false_iff, !negb_false_iff, bool_decide_eq_true.
  intros [H|H]; [by rewrite decide_True|].
  case_decide; [done|]. by rewrite H.
Qed.

(** A qualifying record: the entry is created if need be, then updated. *)
Lemma process_record_qualifying st sf sb rank sub :
  qualifying sub = true ->
  process_record st sf sb rank sub =
    let st' := ensure_entry st sf (record_name sub) sub in
    {| subreddit_data :=
         dict_alter (sighting sb rank sub) (record_name sub)
           (subreddit_data st');
       by_size_category := by_size_category st' |}.
Proof.
  intros [Hn Hs]%qualifying_spec. unfold process_record, record_name in *.
  by rewrite decide_False, Hs.
Qed.

Lemma ensure_entry_get st sf nm sub n e :
  dict_get n (subreddit_data st) = Some e ->
  dict_get n (subreddit_data (ensure_entry st sf nm sub)) = Some e.
Proof.
  intros H. unfold ensure_entry.
  destruct (dict_get nm (subreddit_data st)); simpl; [done|].
  by rewrite dict_get_app, H.
Qed.

(** An entry that exists is left alone or updated by [sighting]. *)
Lemma process_record_existing st sf sb rank sub n e :
  dict_get n (subreddit_data st) = Some e ->
  exists e',
    dict_get n (subreddit_data (process_record st sf sb rank sub)) = Some e'
    /\ (e' = e \/ e' = sighting sb rank sub e).
Proof.
  intros H. destruct (qualifying sub) eqn:Hq.
  - rewrite process_record_qualifying by done. simpl.
    rewrite dict_get_alter. case_decide as Hk.
    + subst n. rewrite (ensure_entry_get _ _ _ _ _ _ H). simpl. eauto.
    + rewrite (ensure_entry_get _ _ _ _ _ _ H). eauto.
  - rewrite process_record_skip by done. eauto.
Qed.

Lemma rank_not_worse_refl (r : option Z) : rank_not_worse r r.
Proof. destruct r; simpl; [lia | done]. Qed.


Lemma sighting_daily_rank sb rank sub e :
  daily_rank (sighting sb rank sub e) =
    if decide (sb = "daily")
    then if improves rank (daily_rank e) then Some rank else daily_rank e
    else daily_rank e.
Proof.
  unfold sighting. simpl.
  case_decide; [destruct (improves rank (daily_rank e))|
                destruct (improves rank (weekly_rank e))]; done.
Qed.

Lemma sighting_weekly_rank sb rank sub e :
  weekly_rank (sighting sb rank sub e) =
    if decide (sb = "daily") then weekly_rank e
    else if improves rank (weekly_rank e) then Some rank else weekly_rank e.
Proof.
  unfold sighting. simpl.
  case_decide; [destruct (improves rank (daily_rank e))|
                destruct (improves rank (weekly_rank e))]; done.
Qed.



Lemma sighting_frame sb rank sub e :
  name (sighting sb rank sub e) = name e
  /\ subscribers (sighting sb rank sub e) = subscribers e
  /\ size_filter (sighting sb rank sub e) = size_filter e
  /\ composite_score (sighting sb rank sub e) = composite_score e
  /\ appearances (sighting sb rank sub e) = appearances e + 1.
Proof.
  unfold sighting. simpl.
  case_decide; [destruct (improves rank (daily_rank e))|
                destruct (improves rank (weekly_rank e))]; done.
Qed.

End RecordFacts.

(** ** The states aggregation passes through *)

Section ReachFacts.
Implicit Types (st : agg_state) (sub : raw_record) (e : SubredditScore).

(** The entry of every name after a qualifying record. *)
Lemma process_record_get st sf sb rank sub nm :
  qualifying sub = true ->
  dict_get nm (subreddit_data (process_record st sf sb rank sub)) =
    if decide (record_name sub = nm)
    then Some (sighting sb rank sub
                 (default (new_entry nm sub sf)
                          (dict_get nm (subreddit_data st))))
    else dict_get nm (subreddit_data st).
Proof.
  intros Hq. rewrite process_record_qualifying by done. simpl.
  rewrite dict_get_alter. unfold ensure_entry.
  destruct (dict_get (record_name sub) (subreddit_data st)) as [e0|] eqn:H0;
    simpl.
  - case_decide; [subst nm; by rewrite H0 | done].
  - rewrite !dict_get_app, H0. simpl.
    destruct (decide (record_name sub = nm)) as [<-|Hk].
    + by rewrite decide_True, H0.
    + by destruct (dict_get nm _).
Qed.

Lemma dict_alter_elem {V} (f : V -> V) k (d : list (string * V)) k' v' :
  (k', v') ∈ dict_alter f k d ->
  exists v, (k', v) ∈ d /\ (v' = v \/ v' = f v).
Proof.
  induction d as [|[k0 v0] d IH]; simpl; [by intros ?%elem_of_nil|].
  case_decide.
  - intros [H1|H1]%elem_of_cons.
    + simplify_eq. exists v0. split; [left | auto].
    + exists v'. split; [by right | auto].
  - intros [H1|H1]%elem_of_cons.
    + simplify_eq. exists v0. split; [left | auto].
    + destruct (IH H1) as (v & ? & ?). exists v. split; [by right | done].
Qed.

Lemma dict_alter_category_keys (f : SubredditScore -> SubredditScore) k
    (d : list (string * SubredditScore)) category :
  (forall e, size_filter (f e) = size_filter e) ->
  dict_keys (filter (fun kv => size_filter kv.2 = category)
                    (dict_alter f k d))
  = dict_keys (filter (fun kv => size_filter kv.2 = category) d).
Proof.
  intros Hf. unfold dict_keys.
  induction d as [|[k0 v0] d IH]; simpl; [done|].
  case_decide.
  - rewrite !filter_cons. simpl. rewrite Hf. by case_decide.
  - rewrite !filter_cons. simpl. case_decide; csimpl; by rewrite IH.
Qed.

Lemma well_formed_initial : well_formed initial.
Proof.
  split; [constructor | split].
  - intros k e H. by apply elem_of_nil in H.
  - intros category. simpl. by rewrite lookup_total_empty.
Qed.

Lemma well_formed_ensure st sf nm sub :
  well_formed st -> well_formed (ensure_entry st sf nm sub).
Proof.
  intros (Hnd & Hnm & Hcat). unfold ensure_entry.
  destruct (dict_get nm (subreddit_data st)) eqn:H0; [done|].
  apply dict_get_None in H0.
  split; [|split]; simpl.
  - unfold dict_keys in *. rewrite fmap_app. simpl.
    apply NoDup_app. split; [done|]. split.
    + intros x Hx ->%list_elem_of_singleton. done.
    + apply NoDup_singleton.
  - intros k e [H|H]%elem_of_app; [by apply Hnm|].
    apply list_elem_of_singleton in H. by simplify_eq.
  - intros category. unfold dict_keys in *.
    rewrite filter_app, fmap_app, filter_cons, filter_nil. simpl.
    destruct (decide (sf = category)) as [->|Hne].
    + by rewrite lookup_total_insert_eq, Hcat.
    + rewrite lookup_total_insert_ne, Hcat by done. by rewrite app_nil_r.
Qed.

Lemma well_formed_alter st sb rank sub nm :
  well_formed st ->
  well_formed {| subreddit_data :=
                   dict_alter (sighting sb rank sub) nm (subreddit_data st);
                 by_size_category := by_size_category st |}.
Proof.
  intros (Hnd & Hnm & Hcat). split; [|split]; simpl.
  - unfold dict_keys. by rewrite dict_alter_keys.
  - intros k e (e0 & He0 & [->| ->])%dict_alter_elem; [by apply Hnm|].
    destruct (sighting_frame sb rank sub e0) as (-> & _). by apply Hnm.
  - intros category. rewrite Hcat. symmetry.
    apply dict_alter_category_keys.
    intros e. by destruct (sighting_frame sb rank sub e) as (_ & _ & -> & _).
Qed.

Lemma well_formed_step st sf sb rank sub :
  well_formed st -> well_formed (process_record st sf sb rank sub).
Proof.
  intros Hwf. destruct (qualifying sub) eqn:Hq.
  - rewrite process_record_qualifying by done.
    by apply well_formed_alter, well_formed_ensure.
  - by rewrite process_record_skip.
Qed.

Lemma reaches_well_formed seen st : reaches seen st -> well_formed st.
Proof.
  induction 1; [apply well_formed_initial | by apply well_formed_step].
Qed.

End ReachFacts.

(** ** From the run to its states *)

Section RunFacts.
Implicit Types (st : agg_state) (net : network) (seen : list raw_record).

Lemma mappings_app items1 items2 :
  mappings (items1 ++ items2) = mappings items1 ++ mappings items2.
Proof. apply omap_app. Qed.

Lemma process_results_reaches items : forall seen st sf sb rank st',
  reaches seen st ->
  process_results st sf sb rank items = inr st' ->
  reaches (seen ++ mappings items) st'.
Proof.
  induction items as [|[sub|] items IH]; intros seen st sf sb rank st' Hr;
    simpl.
  - intros [= <-]. by rewrite app_nil_r.
  - intros H. change (mappings (Mapping sub :: items))
      with (sub :: mappings items).
    rewrite cons_middle, app_assoc.
    eapply IH; [|exact H]. by constructor.
  - discriminate.
Qed.

Lemma run_query_reaches net seen st sf sb st' :
  reaches seen st ->
  run_query net st sf sb = inr st' ->
  reaches (seen ++ mappings (results_or_empty net sf sb)) st'.
Proof.
  unfold run_query, results_or_empty. intros Hr.
  destruct (fetch_subreddits net sf sb) as [e|results].
  - intros [= <-]. by rewrite app_nil_r.
  - by apply process_results_reaches.
Qed.

Lemma for_sort_periods_reaches net sf periods : forall seen st st',
  reaches seen st ->
  for_sort_periods net st sf periods = inr st' ->
  reaches
    (seen ++ mappings (concat (map (results_or_empty net sf) periods))) st'.
Proof.
  induction periods as [|sb periods IH]; intros seen st st' Hr; simpl.
  - intros [= <-]. by rewrite app_nil_r.
  - destruct (run_query net st sf sb) as [e|st1] eqn:H1; simpl; [done|].
    intros H. rewrite mappings_app, app_assoc.
    eapply IH; [|exact H]. by eapply run_query_reaches.
Qed.

Lemma for_size_filters_reaches net filters : forall seen st st',
  reaches seen st ->
  for_size_filters net st filters = inr st' ->
  reaches
    (seen ++ mappings (concat (map (fun sf =>
       concat (map (results_or_empty net sf) SORT_PERIODS)) filters))) st'.
Proof.
  induction filters as [|sf filters IH]; intros seen st st' Hr.
  - intros [= <-]. simpl. by rewrite app_nil_r.
  - cbn [for_size_filters map concat].
    destruct (for_sort_periods net st sf SORT_PERIODS) as [e|st1] eqn:H1;
      [done|].
    cbn [bind]. intros H. rewrite mappings_app, app_assoc.
    eapply IH; [|exact H]. by eapply for_sort_periods_reaches.
Qed.

(** A run that completes has folded exactly the records of all result
    lists, in query order. *)
Lemma aggregate_reaches net st :
  aggregate net = inr st -> reaches (mappings (all_results net)) st.
Proof.
  intros H.
  apply (for_size_filters_reaches net SIZE_FILTERS [] initial st);
    [constructor | exact H].
Qed.

Lemma observed_names_snoc seen sub :
  observed_names (seen ++ [sub])
  = observed_names seen ++ (if qualifying sub then [record_name sub] else []).
Proof.
  unfold observed_names. rewrite filter_app, map_app. f_equal.
  rewrite filter_cons, filter_nil. destruct (qualifying sub); simpl; done.
Qed.

Lemma sightings_snoc nm seen sub :
  sightings nm (seen ++ [sub])
  = (sightings nm seen
     + if qualifying sub && bool_decide (record_name sub = nm)
       then 1 else 0)%nat.
Proof.
  unfold sightings. rewrite observed_names_snoc, filter_app, length_app.
  f_equal. destruct (qualifying sub); simpl; [|done].
  rewrite filter_cons, filter_nil.
  case_decide; [by rewrite bool_decide_eq_true_2 |
                by rewrite bool_decide_eq_false_2].
Qed.

(** Every entry counts the qualifying occurrences of its name so far, and a
    name without entry has had none. *)
Lemma reaches_appearances seen st :
  reaches seen st ->
  forall nm,
    match dict_get nm (subreddit_data st) with
    | Some e => appearances e = Z.of_nat (sightings nm seen)
    | None => sightings nm seen = 0%nat
    end.
Proof.
  induction 1 as [|seen st sf sb rank sub Hr IH]; intros nm; [done|].
  rewrite sightings_snoc. specialize (IH nm).
  destruct (qualifying sub) eqn:Hq; simpl.
  - rewrite process_record_get by done. case_decide as Hk.
    + rewrite bool_decide_eq_true_2 by done.
      destruct (sighting_frame sb rank sub
        (default (new_entry nm sub sf) (dict_get nm (subreddit_data st))))
        as (_ & _ & _ & _ & ->).
      destruct (dict_get nm (subreddit_data st)); simpl; lia.
    + rewrite bool_decide_eq_false_2 by done.
      destruct (dict_get nm (subreddit_data st)); lia.
  - rewrite process_record_skip by done.
    destruct (dict_get nm (subreddit_data st)); lia.
Qed.

(** The keys of the map are the names of the qualifying records. *)
Lemma reaches_keys seen st :
  reaches seen st ->
  forall nm,
    nm ∈ dict_keys (subreddit_data st) <-> nm ∈ observed_names seen.
Proof.
  unfold dict_keys.
  induction 1 as [|seen st sf sb rank sub Hr IH]; intros nm.
  - simpl. split; intros H; by apply elem_of_nil in H.
  - rewrite observed_names_snoc, elem_of_app, <- IH, <- !dict_get_is_Some.
    destruct (qualifying sub) eqn:Hq.
    + rewrite process_record_get, list_elem_of_singleton by done.
      case_decide as Hk; [subst nm|]; split; eauto; intros [?|?]; done.
    + rewrite process_record_skip by done.
      split; [auto | intros [?|H]; [done | by apply elem_of_nil in H]].
Qed.

End RunFacts.

(** ** Sorting *)

Section SortFacts.
Context {A : Type} (key : A -> Q).
Implicit Types (x : A) (l : list A).

Lemma insert_desc_perm x l : insert_desc key x l ≡ₚ x :: l.
Proof.
  induction l as [|y l IH]; simpl; [done|].
  destruct (key x ?= key y)%Q; try done.
  rewrite IH. apply Permutation_swap.
Qed.

Lemma sorted_desc_perm l : sorted_desc key l ≡ₚ l.
Proof.
  induction l as [|x l IH]; simpl; [done|].
  by rewrite insert_desc_perm, IH.
Qed.

Lemma sorted_desc_length l : length (sorted_desc key l) = length l.
Proof. by rewrite sorted_desc_perm. Qed.




(** The sort is stable: the elements of any one key value keep the order
    they had in the input. *)
Lemma insert_desc_stable x l q :
  filter (fun y => Is_true (Qeq_bool (key y) q)) (insert_desc key x l)
  = filter (fun y => Is_true (Qeq_bool (key y) q)) (x :: l).
Proof.
  induction l as [|y l IH]; simpl; [done|].
  destruct (key x ?= key y)%Q eqn:Hc; try done.
  apply Qlt_alt in Hc.
  rewrite (filter_cons _ y), IH, !filter_cons.
  destruct (decide (Is_true (Qeq_bool (key y) q))) as [Hy|Hy],
           (decide (Is_true (Qeq_bool (key x) q))) as [Hx|Hx]; try done.
  apply Is_true_true, Qeq_bool_iff in Hx, Hy.
  rewrite Hx, Hy in Hc. by apply Qlt_irrefl in Hc.
Qed.

Lemma sorted_desc_stable l q :
  filter (fun y => Is_true (Qeq_bool (key y) q)) (sorted_desc key l)
  = filter (fun y => Is_true (Qeq_bool (key y) q)) l.
Proof.
  induction l as [|x l IH]; simpl; [done|].
  by rewrite insert_desc_stable, !filter_cons, IH.
Qed.


End SortFacts.

(** ** Selection *)

Section SelectFacts.
Implicit Types (data : list (string * SubredditScore)) (sel : selection).

Lemma selection_ok_empty data :
  selection_ok data {| selected := ∅; final_list := [] |}.
Proof.
  split; [constructor|]. split; [|split]; simpl.
  - intros n. split; [set_solver | by intros ?%elem_of_nil].
  - by intros n s ?%elem_of_nil.
  - by intros n ?%elem_of_nil.
Qed.

Lemma selection_ok_select data sel nm :
  selection_ok data sel ->
  nm ∉ selected sel -> nm ∈ dict_keys data ->
  selection_ok data (select nm (score_of data nm) sel).
Proof.
  intros (Hnd & Hset & Hsc & Hkeys) Hnew Hkey.
  split; [|split; [|split]]; simpl; rewrite ?fmap_app; simpl.
  - apply NoDup_app. split; [done|]. split; [|apply NoDup_singleton].
    intros n Hn ->%list_elem_of_singleton. by apply Hnew, Hset.
  - intros n. rewrite elem_of_union, elem_of_singleton, elem_of_app,
      list_elem_of_singleton, Hset. tauto.
  - intros n s [H|H]%elem_of_app; [by apply Hsc|].
    apply list_elem_of_singleton in H. by simplify_eq.
  - intros n [H|H]%elem_of_app; [by apply Hkeys|].
    apply list_elem_of_singleton in H. by subst.
Qed.

Lemma take_names_ok data names : forall sel,
  selection_ok data sel ->
  (forall n, n ∈ names -> n ∈ dict_keys data) ->
  selection_ok data (take_names data sel names).
Proof.
  induction names as [|nm names IH]; intros sel Hok Hkeys; simpl; [done|].
  case_decide.
  - apply IH; [done|]. intros n Hn. apply Hkeys. by right.
  - apply IH.
    + apply selection_ok_select; [done..|]. apply Hkeys. by left.
    + intros n Hn. apply Hkeys. by right.
Qed.

Lemma take_names_length data names : forall sel,
  (length (final_list (take_names data sel names))
   <= length (final_list sel) + length names)%nat.
Proof.
  induction names as [|nm names IH]; intros sel; simpl; [lia|].
  case_decide.
  - specialize (IH sel). lia.
  - specialize (IH (select nm (score_of data nm) sel)). simpl in IH.
    rewrite length_app in IH. simpl in IH. lia.
Qed.

Lemma take_names_extends data names : forall sel,
  exists more,
    final_list (take_names data sel names) = final_list sel ++ more.
Proof.
  induction names as [|nm names IH]; intros sel; simpl.
  - exists []. by rewrite app_nil_r.
  - case_decide; [apply IH|].
    destruct (IH (select nm (score_of data nm) sel)) as [more ->]. simpl.
    eexists. by rewrite <- app_assoc.
Qed.

(** Names that are new and pairwise distinct are all taken, in order. *)
Lemma take_names_fresh data names : forall sel,
  NoDup names -> (forall n, n ∈ names -> n ∉ selected sel) ->
  (final_list (take_names data sel names)).*1
    = (final_list sel).*1 ++ names
  /\ selected (take_names data sel names)
     = list_to_set names ∪ selected sel.
Proof.
  induction names as [|nm names IH]; intros sel Hnd Hnew; simpl.
  - split; [by rewrite app_nil_r | set_solver].
  - apply NoDup_cons in Hnd as [Hnm Hnd].
    rewrite decide_False by (apply Hnew; by left).
    destruct (IH (select nm (score_of data nm) sel)) as [-> ->]; [done|..].
    + intros n Hn. simpl. rewrite elem_of_union, elem_of_singleton.
      intros [->|Hs]; [done|]. revert Hs. apply Hnew. by right.
    + simpl. rewrite fmap_app, <- app_assoc. split; [done|]. set_solver.
Qed.

Lemma fill_ok data entries : forall sel,
  selection_ok data sel ->
  (forall e, e ∈ entries -> dict_get (name e) data = Some e) ->
  selection_ok data (fill sel entries).
Proof.
  induction entries as [|e entries IH]; intros sel Hok Hent; cbn [fill];
    [done|].
  assert (Htl : forall e', e' ∈ entries ->
                  dict_get (name e') data = Some e')
    by (intros e' He'; apply Hent; by right).
  case_decide; [by apply IH|].
  assert (Hok' : selection_ok data
                   (select (name e) (composite_score e) sel)).
  { assert (He : dict_get (name e) data = Some e) by (apply Hent; by left).
    replace (composite_score e) with (score_of data (name e))
      by (unfold score_of; by rewrite He).
    apply selection_ok_select; [done..|].
    apply dict_get_is_Some. by rewrite He. }
  case_limit; [done | by apply IH].
Qed.

Lemma select_length nm s sel :
  length (final_list (select nm s sel)) = S (length (final_list sel)).
Proof. simpl. rewrite length_app. simpl. lia. Qed.

Lemma fill_length entries : forall sel,
  (length (final_list sel) < FINAL_OUTPUT_LIMIT)%nat ->
  (length (final_list (fill sel entries)) <= FINAL_OUTPUT_LIMIT)%nat.
Proof.
  induction entries as [|e entries IH]; intros sel Hlt; cbn [fill]; [lia|].
  case_decide; [by apply IH|].
  destruct (Nat.leb_spec FINAL_OUTPUT_LIMIT
              (length (final_list (select (name e) (composite_score e) sel))))
    as [Hge|Hlt'].
  - rewrite select_length. lia.
  - by apply IH.
Qed.

Lemma fill_extends entries : forall sel,
  exists more, final_list (fill sel entries) = final_list sel ++ more.
Proof.
  induction entries as [|e entries IH]; intros sel; cbn [fill].
  - exists []. by rewrite app_nil_r.
  - case_decide; [apply IH|].
    case_limit.
    + simpl. by eexists.
    + destruct (IH (select (name e) (composite_score e) sel)) as [more ->].
      simpl. eexists. by rewrite <- app_assoc.
Qed.

End SelectFacts.

(** ** Scored entries and categories *)

Section CategoryFacts.
Implicit Types (st : agg_state) (data : list (string * SubredditScore)).

Lemma score_all_keys data : dict_keys (score_all data) = dict_keys data.
Proof.
  unfold dict_keys, score_all.
  induction data as [|[k e] data IH]; csimpl; [done | by f_equal].
Qed.

Lemma score_all_get data n :
  dict_get n (score_all data)
  = (fun e => set_composite_score (Scorer.calculate_composite_score e) e)
      <$> dict_get n data.
Proof.
  induction data as [|[k e] data IH]; simpl; [done|]. by case_decide.
Qed.

Lemma score_all_elem data k e' :
  (k, e') ∈ score_all data ->
  exists e, (k, e) ∈ data
    /\ e' = set_composite_score (Scorer.calculate_composite_score e) e.
Proof.
  unfold score_all. intros ([k0 e] & [= -> ->] & Hin)%list_elem_of_fmap.
  by exists e.
Qed.

(** Each scored entry is what the map holds under the entry's own name. *)
Lemma scored_entries st e :
  well_formed st ->
  e ∈ dict_values (score_all (subreddit_data st)) ->
  dict_get (name e) (score_all (subreddit_data st)) = Some e.
Proof.
  intros (Hnd & Hnm & _) ([k e'] & -> & Hin)%list_elem_of_fmap. simpl.
  apply dict_get_elem.
  - fold (dict_keys (score_all (subreddit_data st))).
    by rewrite score_all_keys.
  - destruct (score_all_elem _ _ _ Hin) as (e0 & He0 & ->). simpl.
    by rewrite (Hnm _ _ He0).
Qed.

Lemma recorded_under_scored data category n :
  recorded_under (score_all data) category n = recorded_under data category n.
Proof.
  unfold recorded_under. rewrite score_all_get.
  by destruct (dict_get n data).
Qed.

(** A name is in a category list exactly when its entry was created under
    that size filter. *)
Lemma category_recorded st category n :
  well_formed st ->
  n ∈ by_size_category st !!! category
  <-> recorded_under (subreddit_data st) category n = true.
Proof.
  intros (Hnd & Hnm & Hcat). rewrite Hcat. unfold dict_keys, recorded_under.
  rewrite list_elem_of_fmap. split.
  - intros ([k e] & -> & [Hsf Hin]%list_elem_of_filter). simpl in *.
    rewrite (dict_get_elem _ _ _ Hnd Hin). by apply bool_decide_eq_true.
  - destruct (dict_get n (subreddit_data st)) as [e|] eqn:He; [|done].
    intros Hsf%bool_decide_eq_true. exists (n, e). split; [done|].
    apply list_elem_of_filter. split; [done | by apply dict_get_Some_elem].
Qed.

Lemma category_in_keys st category n :
  well_formed st ->
  n ∈ by_size_category st !!! category ->
  n ∈ dict_keys (subreddit_data st).
Proof.
  intros Hwf Hn. apply (category_recorded _ _ _ Hwf) in Hn.
  unfold recorded_under in Hn. apply dict_get_is_Some.
  by destruct (dict_get n (subreddit_data st)).
Qed.

Lemma category_NoDup st category :
  well_formed st -> NoDup (by_size_category st !!! category).
Proof.
  intros (Hnd & _ & Hcat). rewrite Hcat. unfold dict_keys in *.
  eapply sublist_NoDup; [exact Hnd|].
  apply fmap_sublist, sublist_filter.
Qed.

Lemma category_disjoint st c1 c2 n :
  well_formed st ->
  n ∈ by_size_category st !!! c1 -> n ∈ by_size_category st !!! c2 ->
  c1 = c2.
Proof.
  intros Hwf H1 H2.
  apply (category_recorded _ _ _ Hwf) in H1, H2.
  unfold recorded_under in *.
  destruct (dict_get n (subreddit_data st)); [|done].
  apply bool_decide_eq_true in H1, H2. congruence.
Qed.

(** The names Phase 1 looks at for one category. *)
Lemma heads_in_category data (by_size : gmap string (list string)) c n :
  n ∈ take TOP_PER_SIZE_CATEGORY (sorted_desc (score_of data) (by_size !!! c))
  -> n ∈ by_size !!! c.
Proof.
  intros Hn. rewrite <- (sorted_desc_perm (score_of data)).
  eapply elem_of_sublist; [exact Hn | apply sublist_take].
Qed.

Lemma heads_NoDup data (by_size : gmap string (list string)) c :
  NoDup (by_size !!! c) ->
  NoDup (take TOP_PER_SIZE_CATEGORY
           (sorted_desc (score_of data) (by_size !!! c))).
Proof.
  intros Hnd. eapply sublist_NoDup; [|apply sublist_take].
  by rewrite sorted_desc_perm.
Qed.

End CategoryFacts.

(** ** Phase 1 over tidy categories *)

Section PhaseOne.
Variable data : list (string * SubredditScore).
Variable by_size : gmap string (list string).
Hypothesis category_keys :
  forall c n, n ∈ by_size !!! c -> n ∈ dict_keys data.
Hypothesis category_nodup : forall c, NoDup (by_size !!! c).
Hypothesis category_apart :
  forall c1 c2 n, n ∈ by_size !!! c1 -> n ∈ by_size !!! c2 -> c1 = c2.

Lemma take_category_ok sel c :
  selection_ok data sel -> selection_ok data (take_category data by_size sel c).
Proof.
  intros Hok. apply take_names_ok; [done|].
  intros n Hn. eapply category_keys, heads_in_category, Hn.
Qed.

Lemma phase1_from_ok filters : forall sel,
  selection_ok data sel ->
  selection_ok data (phase1_from data by_size sel filters).
Proof.
  induction filters as [|c filters IH]; intros sel Hok; simpl; [done|].
  by apply IH, take_category_ok.
Qed.

Lemma phase1_from_length filters : forall sel,
  (length (final_list (phase1_from data by_size sel filters))
   <= length (final_list sel) + TOP_PER_SIZE_CATEGORY * length filters)%nat.
Proof.
  induction filters as [|c filters IH]; intros sel; cbn [phase1_from].
  - simpl. lia.
  - specialize (IH (take_category data by_size sel c)).
    pose proof (take_names_length data
      (take TOP_PER_SIZE_CATEGORY
         (sorted_desc (score_of data) (by_size !!! c))) sel) as Hlen.
    rewrite length_take in Hlen.
    unfold take_category, TOP_PER_SIZE_CATEGORY in *. cbn [length]. lia.
Qed.

(** The membership test of Phase 1 never fires: the output so far grows by
    the heads of each category in turn. *)
Lemma phase1_from_fresh filters : forall sel,
  NoDup filters ->
  (forall c n, c ∈ filters -> n ∈ by_size !!! c -> n ∉ selected sel) ->
  (final_list (phase1_from data by_size sel filters)).*1
  = (final_list sel).*1 ++ category_heads data by_size filters.
Proof.
  induction filters as [|c filters IH]; intros sel Hnd Hnew;
    cbn [phase1_from]; unfold category_heads; cbn [map concat].
  - by rewrite app_nil_r.
  - apply NoDup_cons in Hnd as [Hc Hnd].
    destruct (take_names_fresh data
      (take TOP_PER_SIZE_CATEGORY
         (sorted_desc (score_of data) (by_size !!! c))) sel) as [Hfl Hsel].
    { by apply heads_NoDup. }
    { intros n Hn. eapply Hnew; [by left|]. by eapply heads_in_category. }
    rewrite app_assoc, <- Hfl. apply IH; [done|].
    intros c' n Hc' Hn. unfold take_category. rewrite Hsel.
    rewrite elem_of_union, elem_of_list_to_set. intros [Hh|Hs].
    + apply heads_in_category in Hh.
      assert (c = c') by eauto. by subst c'.
    + revert Hs. eapply Hnew; [by right | done].
Qed.

End PhaseOne.

(** ** The selector on an aggregated state *)

Section BlendFacts.
Variable st : agg_state.
Hypothesis tidy : well_formed st.

Lemma SIZE_FILTERS_NoDup : NoDup SIZE_FILTERS.
Proof. apply (bool_decide_unpack (NoDup SIZE_FILTERS)). by vm_compute. Qed.

Lemma scored_category_keys c n :
  n ∈ (by_size_category st) !!! c -> n ∈ dict_keys (scored st).
Proof.
  intros Hn. unfold scored. rewrite score_all_keys.
  by eapply category_in_keys.
Qed.

Lemma phase1_ok :
  selection_ok (scored st) (phase1 (scored st) (by_size_category st)).
Proof.
  apply phase1_from_ok; [apply scored_category_keys|].
  apply selection_ok_empty.
Qed.

Lemma phase1_names :
  (final_list (phase1 (scored st) (by_size_category st))).*1
  = category_heads (scored st) (by_size_category st) SIZE_FILTERS.
Proof.
  unfold phase1.
  rewrite (phase1_from_fresh (scored st) (by_size_category st)); [done|..].
  - intros c. by apply category_NoDup.
  - intros c1 c2 n. by apply category_disjoint.
  - apply SIZE_FILTERS_NoDup.
  - intros c n _ _. apply not_elem_of_empty.
Qed.

Lemma phase1_length :
  (length (final_list (phase1 (scored st) (by_size_category st)))
   <= 20)%nat.
Proof.
  unfold phase1.
  pose proof (phase1_from_length (scored st) (by_size_category st) SIZE_FILTERS
    {| selected := ∅; final_list := [] |}) as H.
  unfold TOP_PER_SIZE_CATEGORY in H. simpl in H. exact H.
Qed.

Lemma phase2_ok sel :
  selection_ok (scored st) sel ->
  selection_ok (scored st) (phase2 (scored st) sel).
Proof.
  intros Hok. unfold phase2. destruct (0 <? _); [|done].
  apply fill_ok; [done|]. intros e He.
  rewrite sorted_desc_perm in He. by apply scored_entries.
Qed.

Lemma phase2_length sel :
  (length (final_list sel) <= FINAL_OUTPUT_LIMIT)%nat ->
  (length (final_list (phase2 (scored st) sel)) <= FINAL_OUTPUT_LIMIT)%nat.
Proof.
  intros Hle. unfold phase2.
  destruct (Z.ltb_spec 0
    (Z.of_nat FINAL_OUTPUT_LIMIT - Z.of_nat (length (final_list sel))));
    [|done].
  apply fill_length. lia.
Qed.

Lemma phase2_extends sel :
  exists more, final_list (phase2 (scored st) sel) = final_list sel ++ more.
Proof.
  unfold phase2. destruct (0 <? _); [apply fill_extends|].
  exists []. by rewrite app_nil_r.
Qed.

(** The output is the selected names, reordered. *)
Lemma blend_perm :
  blend st
  ≡ₚ (final_list (phase2 (scored st)
                  (phase1 (scored st) (by_size_category st)))).*1.
Proof.
  unfold blend. fold (scored st).
  change (map fst ?l) with (l.*1). by rewrite sorted_desc_perm.
Qed.

Lemma blend_selection_ok :
  selection_ok (scored st)
    (phase2 (scored st) (phase1 (scored st) (by_size_category st))).
Proof. apply phase2_ok, phase1_ok. Qed.

Lemma blend_NoDup : NoDup (blend st).
Proof. rewrite blend_perm. apply blend_selection_ok. Qed.

Lemma blend_length : (length (blend st) <= FINAL_OUTPUT_LIMIT)%nat.
Proof.
  rewrite blend_perm, length_fmap. apply phase2_length.
  pose proof phase1_length. unfold FINAL_OUTPUT_LIMIT. lia.
Qed.

Lemma blend_in_keys n : n ∈ blend st -> n ∈ dict_keys (subreddit_data st).
Proof.
  rewrite blend_perm. intros Hn.
  destruct blend_selection_ok as (_ & _ & _ & Hkeys).
  apply Hkeys in Hn. unfold scored in Hn. by rewrite score_all_keys in Hn.
Qed.


End BlendFacts.

(** ** Exceptions and the fetch boundary *)

Section ExceptionFacts.
Implicit Types (st : agg_state) (net : network).

Lemma process_results_raises items : forall st sf sb rank e,
  process_results st sf sb rank items = inl e -> e = AttributeError.
Proof.
  induction items as [|[sub|] items IH]; intros st sf sb rank e; simpl.
  - discriminate.
  - apply IH.
  - by intros [= <-].
Qed.

Lemma process_results_stray items : forall st sf sb rank,
  NotMapping ∈ items ->
  process_results st sf sb rank items = inl AttributeError.
Proof.
  induction items as [|[sub|] items IH]; intros st sf sb rank Hin; simpl.
  - by apply elem_of_nil in Hin.
  - apply IH. by apply elem_of_cons in Hin as [?|?].
  - done.
Qed.

Lemma process_results_total items : forall st sf sb rank,
  NotMapping ∉ items ->
  exists st', process_results st sf sb rank items = inr st'.
Proof.
  induction items as [|[sub|] items IH]; intros st sf sb rank Hin; simpl.
  - by eexists.
  - apply IH. intros H. apply Hin. by right.
  - destruct Hin. by left.
Qed.

Lemma run_query_raises net st sf sb e :
  run_query net st sf sb = inl e -> e = AttributeError.
Proof.
  unfold run_query. destruct (fetch_subreddits net sf sb); [done|].
  apply process_results_raises.
Qed.


Lemma run_query_results net st sf sb :
  run_query net st sf sb
  = process_results st sf sb 0 (results_or_empty net sf sb).
Proof.
  unfold run_query, results_or_empty.
  by destruct (fetch_subreddits net sf sb).
Qed.

Lemma for_sort_periods_raises net sf periods : forall st e,
  for_sort_periods net st sf periods = inl e -> e = AttributeError.
Proof.
  induction periods as [|sb periods IH]; intros st e; simpl; [done|].
  destruct (run_query net st sf sb) as [e'|st'] eqn:Hq; simpl.
  - intros [= <-]. by eapply run_query_raises.
  - apply IH.
Qed.

Lemma for_sort_periods_stray net sf periods sb : forall st,
  sb ∈ periods -> NotMapping ∈ results_or_empty net sf sb ->
  for_sort_periods net st sf periods = inl AttributeError.
Proof.
  induction periods as [|sb' periods IH]; intros st Hin Hstray; simpl.
  - by apply elem_of_nil in Hin.
  - destruct (run_query net st sf sb') as [e'|st'] eqn:Hq; simpl.
    + f_equal. by eapply run_query_raises.
    + apply elem_of_cons in Hin as [->|Hin]; [|by apply IH].
      rewrite run_query_results, process_results_stray in Hq; done.
Qed.

Lemma for_size_filters_stray net filters sf sb : forall st,
  sf ∈ filters -> sb ∈ SORT_PERIODS ->
  NotMapping ∈ results_or_empty net sf sb ->
  for_size_filters net st filters = inl AttributeError.
Proof.
  induction filters as [|sf' filters IH]; intros st Hin Hsb Hstray;
    cbn [for_size_filters].
  - by apply elem_of_nil in Hin.
  - destruct (for_sort_periods net st sf' SORT_PERIODS) as [e'|st'] eqn:Hq;
      cbn [bind].
    + f_equal. by eapply for_sort_periods_raises.
    + apply elem_of_cons in Hin as [->|Hin]; [|by apply IH].
      by rewrite (for_sort_periods_stray _ _ _ sb) in Hq.
Qed.



(** The run completes when every element of every result list is a
    mapping. *)
Lemma for_sort_periods_total net sf periods : forall st,
  (forall sb, NotMapping ∉ results_or_empty net sf sb) ->
  exists st', for_sort_periods net st sf periods = inr st'.
Proof.
  induction periods as [|sb periods IH]; intros st Hok; simpl.
  - by eexists.
  - rewrite run_query_results.
    destruct (process_results_total (results_or_empty net sf sb) st sf sb 0)
      as [st' ->]; [done|].
    simpl. by apply IH.
Qed.

Lemma for_size_filters_total net filters : forall st,
  (forall sf sb, NotMapping ∉ results_or_empty net sf sb) ->
  exists st', for_size_filters net st filters = inr st'.
Proof.
  induction filters as [|sf filters IH]; intros st Hok;
    cbn [for_size_filters].
  - by eexists.
  - destruct (for_sort_periods_total net sf SORT_PERIODS st) as [st' ->];
      [done|].
    cbn [bind]. by apply IH.
Qed.

Lemma run_completes net :
  (forall sf sb, NotMapping ∉ results_or_empty net sf sb) ->
  exists out, generate_blended_trending net = inr out.
Proof.
  intros Hok. unfold generate_blended_trending, aggregate.
  destruct (for_size_filters_total net SIZE_FILTERS initial Hok) as [st ->].
  simpl. by eexists.
Qed.

Lemma run_inversion net out :
  generate_blended_trending net = inr out ->
  exists st, aggregate net = inr st /\ out = blend st.
Proof.
  unfold generate_blended_trending.
  destruct (aggregate net) as [e|st]; simpl; [done|].
  intros [= <-]. by exists st.
Qed.

End ExceptionFacts.

(** ** Counting the names of a category *)

Section CountFacts.
Implicit Types (data : list (string * SubredditScore)) (l : list string).

Lemma count_recorded_app data c l1 l2 :
  count_recorded_under data c (l1 ++ l2)
  = (count_recorded_under data c l1 + count_recorded_under data c l2)%nat.
Proof. unfold count_recorded_under. by rewrite filter_app, length_app. Qed.

Lemma count_recorded_perm data c l1 l2 :
  l1 ≡ₚ l2 ->
  count_recorded_under data c l1 = count_recorded_under data c l2.
Proof. unfold count_recorded_under. by intros ->. Qed.

Lemma count_recorded_all data c l :
  (forall n, n ∈ l -> recorded_under data c n = true) ->
  count_recorded_under data c l = length l.
Proof.
  unfold count_recorded_under. induction l as [|n l IH]; intros H; [done|].
  rewrite filter_cons, decide_True.
  - simpl. f_equal. apply IH. intros n' Hn'. apply H. by right.
  - apply Is_true_true. apply H. by left.
Qed.

Lemma count_recorded_none data c l :
  (forall n, n ∈ l -> recorded_under data c n = false) ->
  count_recorded_under data c l = 0%nat.
Proof.
  unfold count_recorded_under. induction l as [|n l IH]; intros H; [done|].
  rewrite filter_cons, decide_False.
  - apply IH. intros n' Hn'. apply H. by right.
  - apply Is_true_false. apply H. by left.
Qed.

Lemma recorded_under_other data c c' n :
  recorded_under data c' n = true -> c <> c' ->
  recorded_under data c n = false.
Proof.
  unfold recorded_under. destruct (dict_get n data); [|done].
  intros H%bool_decide_eq_true Hne. apply bool_decide_eq_false. congruence.
Qed.

(** Among the heads of distinct categories, those recorded under [c] are the
    heads of [c] itself. *)
Lemma count_heads st data' c filters :
  well_formed st -> NoDup filters ->
  count_recorded_under (subreddit_data st) c
    (category_heads data' (by_size_category st) filters)
  = if decide (c ∈ filters)
    then min TOP_PER_SIZE_CATEGORY (length (by_size_category st !!! c))
    else 0%nat.
Proof.
  intros Hwf. unfold category_heads.
  induction filters as [|c' filters IH]; intros Hnd; cbn [map concat].
  - rewrite decide_False; [done | apply not_elem_of_nil].
  - apply NoDup_cons in Hnd as [Hc' Hnd].
    rewrite count_recorded_app, IH by done.
    destruct (decide (c = c')) as [<-|Hne].
    + rewrite (decide_False (P := c ∈ filters)) by done.
      rewrite decide_True by left.
      rewrite count_recorded_all.
      * rewrite length_take, sorted_desc_length. lia.
      * intros n Hn%heads_in_category. by apply category_recorded.
    + rewrite count_recorded_none.
      * simpl. destruct (decide (c ∈ filters)).
        -- rewrite decide_True; [done | by right].
        -- rewrite decide_False; [done|].
           by intros [?|?]%elem_of_cons.
      * intros n Hn%heads_in_category.
        eapply recorded_under_other; [|done].
        by apply category_recorded.
Qed.

End CountFacts.

(** * The claims *)

Import Samples.




(** C7.  A record with a truthy NSFW flag leaves the whole state -- map and
    category lists -- exactly as it was, whatever its other fields; and a
    name is a key of the map only if some processed record that carries it
    has no NSFW flag set. *)
Theorem nsfw_records_leave_no_trace :
  (forall st sf sb rank sub,
     isNsfw sub = Some true \/ internal_IsNsfw sub = Some true
     \/ suggested_Internal_IsNsfw sub = Some true ->
     process_record st sf sb rank sub = st)
  /\ (forall seen st nm,
        reaches seen st -> nm ∈ dict_keys (subreddit_data st) ->
        exists sub,
          sub ∈ seen /\ record_name sub = nm /\ is_nsfw sub = false).
Proof.
  split.
  - intros st sf sb rank sub Hflag. apply process_record_skip.
    unfold qualifying. apply andb_false_iff. right.
    apply negb_false_iff, is_nsfw_flags.
    destruct Hflag as [->|[->| ->]]; auto.
  - intros seen st nm Hr Hkey. apply (reaches_keys _ _ Hr) in Hkey.
    unfold observed_names in Hkey.
    apply list_elem_of_fmap in Hkey as (sub & -> & Hsub).
    apply list_elem_of_filter in Hsub as [Hq Hin].
    apply Is_true_true, qualifying_spec in Hq as [_ Hq].
    by exists sub.
Qed.

(** C8.  When the run completes, the [appearances] of every entry is the
    number of qualifying records bearing its name in all the result lists
    together, every occurrence counted; a name without entry has none. *)
Theorem appearances_count_sightings net st :
  aggregate net = inr st ->
  forall nm,
    match dict_get nm (subreddit_data st) with
    | Some e => appearances e
                = Z.of_nat (sightings nm (mappings (all_results net)))
    | None => sightings nm (mappings (all_results net)) = 0%nat
    end.
Proof. intros Hagg. by apply reaches_appearances, aggregate_reaches. Qed.

(** C9.  One record later, under whatever size filter, an entry that exists
    has the name, the subscribers, the size filter and the stored score it
    had, and the rank of the other sort period is untouched. *)
Theorem later_sightings_keep_identity st sf sb rank sub n e :
  dict_get n (subreddit_data st) = Some e ->
  exists e',
    dict_get n (subreddit_data (process_record st sf sb rank sub)) = Some e'
    /\ name e' = name e
    /\ subscribers e' = subscribers e
    /\ size_filter e' = size_filter e
    /\ composite_score e' = composite_score e
    /\ (sb = "daily" -> weekly_rank e' = weekly_rank e)
    /\ (sb <> "daily" -> daily_rank e' = daily_rank e).
Proof.
  intros Hget.
  destruct (process_record_existing st sf sb rank sub n e Hget)
    as (e' & Hget' & He').
  exists e'. split; [done|]. destruct He' as [->| ->]; [done|].
  destruct (sighting_frame sb rank sub e) as (-> & -> & -> & -> & _).
  rewrite sighting_daily_rank, sighting_weekly_rank.
  repeat split; intros Hsb; by case_decide.
Qed.


(** C5.  The list a run returns has at most thirty names, no name twice,
    and no more names than there are distinct names among the qualifying
    records of all the result lists. *)
Theorem output_is_bounded net out :
  generate_blended_trending net = inr out ->
  (length out <= 30)%nat
  /\ NoDup out
  /\ (length out
      <= size (list_to_set (observed_names (mappings (all_results net)))
                 : gset string))%nat.
Proof.
  intros (st & Hagg & ->)%run_inversion.
  pose proof (aggregate_reaches _ _ Hagg) as Hr.
  pose proof (reaches_well_formed _ _ Hr) as Hwf.
  split; [by apply blend_length|]. split; [by apply blend_NoDup|].
  assert (list_to_set (observed_names (mappings (all_results net)))
          = (list_to_set (dict_keys (subreddit_data st)) : gset string))
    as ->.
  { apply set_eq. intros n. rewrite !elem_of_list_to_set.
    symmetry. by apply reaches_keys. }
  rewrite size_list_to_set by apply Hwf.
  apply submseteq_length, NoDup_submseteq; [by apply blend_NoDup|].
  intros n. by apply blend_in_keys.
Qed.


(** C3.  When each of the four categories holds at least five names, the
    list a run returns contains, for each category, at least
    min(5, category length) names whose entry records that category. *)
Theorem every_category_is_represented net st out :
  aggregate net = inr st ->
  generate_blended_trending net = inr out ->
  (forall c, c ∈ SIZE_FILTERS ->
     (5 <= length (by_size_category st !!! c))%nat) ->
  forall c, c ∈ SIZE_FILTERS ->
    (min 5 (length (by_size_category st !!! c))
     <= count_recorded_under (subreddit_data st) c out)%nat.
Proof.
  intros Hagg Hrun _ c Hc.
  apply run_inversion in Hrun as (st' & Hagg' & ->).
  assert (st' = st) as -> by congruence.
  pose proof (reaches_well_formed _ _ (aggregate_reaches _ _ Hagg)) as Hwf.
  rewrite (count_recorded_perm _ _ _ _ (blend_perm st)).
  destruct (phase2_extends st (phase1 (scored st) (by_size_category st)))
    as [more ->].
  rewrite fmap_app, count_recorded_app, phase1_names by done.
  rewrite count_heads by (done || apply SIZE_FILTERS_NoDup).
  rewrite decide_True by done. unfold TOP_PER_SIZE_CATEGORY. lia.
Qed.

(** * The theorems at work on the sample inputs *)



Lemma every_category_is_represented_witness :
  (min 5 (length (by_size_category (state_of six_each) !!! "large"))
   <= count_recorded_under (subreddit_data (state_of six_each)) "large"
        (output_of six_each))%nat.
Proof.
  apply (every_category_is_represented six_each).
  - vm_compute. reflexivity.
  - vm_compute. reflexivity.
  - intros c Hc. unfold SIZE_FILTERS in Hc.
    repeat (apply elem_of_cons in Hc as [->|Hc]);
      [vm_compute; lia.. | by apply elem_of_nil in Hc].
  - unfold SIZE_FILTERS. do 2 right. left.
Defined.


Lemma output_is_bounded_witness :
  (length ["a"; "b"] <= 30)%nat
  /\ NoDup ["a"; "b"]
  /\ (length ["a"; "b"]
      <= size (list_to_set
                 (observed_names (mappings (all_results medium_daily_only)))
               : gset string))%nat.
Proof. apply (output_is_bounded medium_daily_only). reflexivity. Defined.


Lemma nsfw_records_leave_no_trace_witness :
  process_record seen_state "large" "weekly" 0 (nsfw_record "x") = seen_state.
Proof.
  apply (proj1 nsfw_records_leave_no_trace). right. left. reflexivity.
Defined.

Lemma appearances_count_sightings_witness :
  match dict_get "a" (subreddit_data (state_of repeated_name)) with
  | Some e => appearances e
              = Z.of_nat (sightings "a" (mappings (all_results repeated_name)))
  | None => sightings "a" (mappings (all_results repeated_name)) = 0%nat
  end.
Proof.
  apply (appearances_count_sightings repeated_name). reflexivity.
Defined.

Lemma later_sightings_keep_identity_witness :
  exists e',
    dict_get "a" (subreddit_data
      (process_record seen_state "large" "weekly" 1 (record "a" 70 20)))
      = Some e'
    /\ name e' = name seen_entry
    /\ subscribers e' = subscribers seen_entry
    /\ size_filter e' = size_filter seen_entry
    /\ composite_score e' = composite_score seen_entry
    /\ ("weekly" = "daily" -> weekly_rank e' = weekly_rank seen_entry)
    /\ ("weekly" <> "daily" -> daily_rank e' = daily_rank seen_entry).
Proof. apply (later_sightings_keep_identity seen_state). reflexivity. Defined.


(** The scenarios of the specification, run. *)

Example scenario_two_records :
  generate_blended_trending medium_daily_only = inr ["a"; "b"]
  /\ (score_of (scored (state_of medium_daily_only)) "a" == 25)%Q
  /\ (score_of (scored (state_of medium_daily_only)) "b" == 20)%Q.
Proof. repeat split; by vm_compute. Qed.

Example scenario_all_down : generate_blended_trending all_down = inr [].
Proof. reflexivity. Qed.

Example scenario_repeated_name :
  appearances <$> dict_get "a" (subreddit_data (state_of repeated_name))
  = Some 2.
Proof. reflexivity. Qed.

Example scenario_six_each :
  length (output_of six_each) = 24%nat.
Proof. by vm_compute. Qed.

(** * Further properties of the code *)

(** ** The loops as one fold over events *)

Section ReplayFacts.
Implicit Types (st : agg_state) (net : network) (ev : event).

Lemma process_results_replay items : forall st sf sb rank st',
  process_results st sf sb rank items = inr st' ->
  st' = foldl apply_event st (enumerate_from sf sb rank (mappings items)).
Proof.
  induction items as [|[sub|] items IH]; intros st sf sb rank st'; simpl.
  - by intros [= <-].
  - intros H. change (mappings (Mapping sub :: items))
      with (sub :: mappings items).
    simpl. by apply IH.
  - discriminate.
Qed.

Lemma run_query_replay net st sf sb st' :
  run_query net st sf sb = inr st' ->
  st' = foldl apply_event st (query_events net sf sb).
Proof.
  rewrite run_query_results. apply process_results_replay.
Qed.

Lemma for_sort_periods_replay net sf periods : forall st st',
  for_sort_periods net st sf periods = inr st' ->
  st' = foldl apply_event st (concat (map (query_events net sf) periods)).
Proof.
  induction periods as [|sb periods IH]; intros st st'; simpl.
  - by intros [= <-].
  - destruct (run_query net st sf sb) as [e|st1] eqn:H1; simpl; [done|].
    intros H. rewrite foldl_app, <- (run_query_replay _ _ _ _ _ H1).
    by apply IH.
Qed.

Lemma for_size_filters_replay net filters : forall st st',
  for_size_filters net st filters = inr st' ->
  st' = foldl apply_event st
          (concat (map (fun sf =>
             concat (map (query_events net sf) SORT_PERIODS)) filters)).
Proof.
  induction filters as [|sf filters IH]; intros st st'.
  - by intros [= <-].
  - cbn [for_size_filters map concat].
    destruct (for_sort_periods net st sf SORT_PERIODS) as [e|st1] eqn:H1;
      [done|].
    cbn [bind]. intros H.
    rewrite foldl_app, <- (for_sort_periods_replay _ _ _ _ _ H1).
    by apply IH.
Qed.

(** A run that completes ends in the state the events replay to. *)
Lemma aggregate_replay net st :
  aggregate net = inr st -> st = replay (all_events net).
Proof. apply for_size_filters_replay. Qed.

Lemma replay_snoc evs ev : replay (evs ++ [ev]) = apply_event (replay evs) ev.
Proof. unfold replay. by rewrite foldl_snoc. Qed.

Lemma events_of_snoc nm evs ev :
  events_of nm (evs ++ [ev])
  = events_of nm evs
    ++ (if decide (qualifying (ev_sub ev) = true
                   /\ record_name (ev_sub ev) = nm)
        then [ev] else []).
Proof.
  unfold events_of. by rewrite filter_app.
Qed.

(** The entry of a name is built from the sightings of that name alone. *)
Lemma replay_entry evs nm :
  dict_get nm (subreddit_data (replay evs))
  = entry_from nm (events_of nm evs).
Proof.
  induction evs as [|ev evs IH] using rev_ind; [done|].
  rewrite replay_snoc, events_of_snoc. unfold apply_event.
  destruct (qualifying (ev_sub ev)) eqn:Hq.
  - rewrite process_record_get, IH by done.
    destruct (decide (record_name (ev_sub ev) = nm)) as [Hn|Hn].
    + rewrite decide_True by done.
      destruct (events_of nm evs) as [|first occ]; simpl; [done|].
      by rewrite foldl_snoc.
    + rewrite decide_False by tauto. by rewrite app_nil_r.
  - rewrite process_record_skip, IH by done.
    rewrite decide_False by (intros [? _]; done). by rewrite app_nil_r.
Qed.

Lemma elem_of_events_of nm evs ev :
  ev ∈ events_of nm evs <-> sights nm ev /\ ev ∈ evs.
Proof. unfold events_of, sights. by rewrite list_elem_of_filter. Qed.

End ReplayFacts.

(** ** Where the events come from *)

Section EventFacts.
Implicit Types (st : agg_state) (net : network) (ev : event).

Lemma elem_of_concat_map {A B} (f : A -> list B) (l : list A) (x : B) :
  x ∈ concat (map f l) <-> exists a, a ∈ l /\ x ∈ f a.
Proof.
  induction l as [|a l IH]; simpl.
  - split; [by intros ?%elem_of_nil | by intros (a & ?%elem_of_nil & _)].
  - rewrite elem_of_app, IH. split.
    + intros [H|(a' & Ha' & H)]; [exists a | exists a'];
        (split; [by constructor | done]).
    + intros (a' & [->|Ha']%elem_of_cons & H); [by left | right; eauto].
Qed.

Lemma elem_of_enumerate_from sf sb subs : forall rank ev,
  ev ∈ enumerate_from sf sb rank subs
  <-> ev_size_filter ev = sf /\ ev_sort_by ev = sb /\ rank <= ev_rank ev
      /\ subs !! Z.to_nat (ev_rank ev - rank) = Some (ev_sub ev).
Proof.
  induction subs as [|sub subs IH]; intros rank ev; simpl.
  - split; [by intros ?%elem_of_nil | by intros (_ & _ & _ & ?)].
  - rewrite elem_of_cons, IH. split.
    + intros [->|(-> & -> & Hle & Hsub)]; simpl.
      * repeat split; [lia|]. by rewrite Z.sub_diag.
      * repeat split; [lia|].
        replace (Z.to_nat (ev_rank ev - rank))
          with (S (Z.to_nat (ev_rank ev - (rank + 1)))) by lia.
        done.
    + intros (<- & <- & Hle & Hsub).
      destruct (decide (ev_rank ev = rank)) as [Heq|Hne].
      * left. rewrite Heq, Z.sub_diag in Hsub. simpl in Hsub.
        destruct ev; simpl in *. by simplify_eq.
      * right. repeat split; [lia|].
        replace (Z.to_nat (ev_rank ev - rank))
          with (S (Z.to_nat (ev_rank ev - (rank + 1)))) in Hsub by lia.
        done.
Qed.

(** The events are the elements of the queried lists, each with its query
    and its index in the list. *)
Lemma elem_of_all_events net ev :
  ev ∈ all_events net
  <-> ev_size_filter ev ∈ SIZE_FILTERS /\ ev_sort_by ev ∈ SORT_PERIODS
      /\ 0 <= ev_rank ev
      /\ mappings (results_or_empty net (ev_size_filter ev) (ev_sort_by ev))
           !! Z.to_nat (ev_rank ev) = Some (ev_sub ev).
Proof.
  unfold all_events. rewrite elem_of_concat_map. split.
  - intros (sf & Hsf & (sb & Hsb & Hev)%elem_of_concat_map).
    apply elem_of_enumerate_from in Hev as (<- & <- & Hle & Hsub).
    by rewrite Z.sub_0_r in Hsub.
  - intros (Hsf & Hsb & Hle & Hsub).
    exists (ev_size_filter ev). split; [done|].
    apply elem_of_concat_map. exists (ev_sort_by ev). split; [done|].
    apply elem_of_enumerate_from. by rewrite Z.sub_0_r.
Qed.

Lemma mappings_lookup items : forall i sub,
  NotMapping ∉ items ->
  mappings items !! i = Some sub <-> items !! i = Some (Mapping sub).
Proof.
  induction items as [|[sub0|] items IH]; intros i sub Hwt.
  - done.
  - change (mappings (Mapping sub0 :: items)) with (sub0 :: mappings items).
    destruct i as [|i]; simpl.
    + split; intros; by simplify_eq.
    + apply IH. intros H. apply Hwt. by right.
  - destruct Hwt. by left.
Qed.


(** A run that completes has met mappings only. *)
Lemma aggregate_well_typed net st : aggregate net = inr st -> well_typed net.
Proof.
  intros Hagg sf sb Hsf Hsb Hstray. unfold aggregate in Hagg.
  by rewrite (for_size_filters_stray net SIZE_FILTERS sf sb) in Hagg.
Qed.

Lemma for_sort_periods_completes net sf periods : forall st,
  (forall sb, sb ∈ periods -> NotMapping ∉ results_or_empty net sf sb) ->
  exists st', for_sort_periods net st sf periods = inr st'.
Proof.
  induction periods as [|sb periods IH]; intros st Hok; simpl.
  - by eexists.
  - rewrite run_query_results.
    destruct (process_results_total (results_or_empty net sf sb) st sf sb 0)
      as [st' ->]; [apply Hok; by left|].
    simpl. apply IH. intros sb' Hsb'. apply Hok. by right.
Qed.

Lemma for_size_filters_completes net filters : forall st,
  (forall sf sb, sf ∈ filters -> sb ∈ SORT_PERIODS ->
     NotMapping ∉ results_or_empty net sf sb) ->
  exists st', for_size_filters net st filters = inr st'.
Proof.
  induction filters as [|sf filters IH]; intros st Hok;
    cbn [for_size_filters].
  - by eexists.
  - destruct (for_sort_periods_completes net sf SORT_PERIODS st)
      as [st' ->]; [intros sb Hsb; apply Hok; [by left | done]|].
    cbn [bind]. apply IH. intros sf' sb Hsf' Hsb. apply Hok; [by right|done].
Qed.

Lemma well_typed_completes net :
  well_typed net -> exists st, aggregate net = inr st.
Proof. intros Hwt. by apply for_size_filters_completes. Qed.

End EventFacts.

(** ** Folding the sightings of one name *)

Section FoldFacts.
Implicit Types (e : SubredditScore) (ev : event) (occ : list event).

Lemma fold_frame occ : forall e0,
  name (foldl sight e0 occ) = name e0
  /\ subscribers (foldl sight e0 occ) = subscribers e0
  /\ size_filter (foldl sight e0 occ) = size_filter e0
  /\ composite_score (foldl sight e0 occ) = composite_score e0
  /\ appearances (foldl sight e0 occ)
     = appearances e0 + Z.of_nat (length occ).
Proof.
  induction occ as [|ev occ IH]; intros e0; simpl.
  - repeat split. lia.
  - destruct (IH (sight e0 ev)) as (-> & -> & -> & -> & ->).
    destruct (sighting_frame (ev_sort_by ev) (ev_rank ev) (ev_sub ev) e0)
      as (H1 & H2 & H3 & H4 & H5).
    unfold sight. rewrite H1, H2, H3, H4, H5. repeat split. lia.
Qed.

(** A rank slot that starts empty ends with the least index among the
    events that write to it. *)
Lemma fold_slot (get : SubredditScore -> option Z) (cond : event -> Prop) :
  (forall ev, cond ev \/ ~ cond ev) ->
  (forall e ev, cond ev ->
     get (sight e ev)
     = if improves (ev_rank ev) (get e) then Some (ev_rank ev) else get e) ->
  (forall e ev, ~ cond ev -> get (sight e ev) = get e) ->
  forall occ e0, get e0 = None ->
    match get (foldl sight e0 occ) with
    | None => forall ev, ev ∈ occ -> ~ cond ev
    | Some r =>
        (exists ev, ev ∈ occ /\ cond ev /\ ev_rank ev = r)
        /\ (forall ev, ev ∈ occ -> cond ev -> r <= ev_rank ev)
    end.
Proof.
  intros Hdec Hyes Hno occ e0 H0.
  induction occ as [|ev occ IH] using rev_ind; simpl.
  - rewrite H0. by intros ev ?%elem_of_nil.
  - rewrite foldl_snoc. set (e := foldl sight e0 occ) in *.
    destruct (Hdec ev) as [Hc|Hc].
    + rewrite Hyes by done.
      destruct (get e) as [r|] eqn:Hr; simpl.
      * destruct IH as [(ev0 & Hin0 & Hc0 & Hr0) Hmin].
        destruct (Z.ltb_spec (ev_rank ev) r) as [Hlt|Hge].
        -- split.
           ++ exists ev. split; [|done]. apply elem_of_app. right. by left.
           ++ intros ev' [Hin|Hin%list_elem_of_singleton]%elem_of_app Hc'.
              ** specialize (Hmin ev' Hin Hc'). lia.
              ** subst ev'. lia.
        -- split.
           ++ exists ev0. split; [|done]. apply elem_of_app. by left.
           ++ intros ev' [Hin|Hin%list_elem_of_singleton]%elem_of_app Hc'.
              ** by apply Hmin.
              ** by subst ev'.
      * split.
        -- exists ev. split; [|done]. apply elem_of_app. right. by left.
        -- intros ev' [Hin|Hin%list_elem_of_singleton]%elem_of_app Hc'.
           ++ by destruct (IH ev' Hin).
           ++ subst ev'. lia.
    + rewrite Hno by done. destruct (get e) as [r|] eqn:Hr.
      * destruct IH as [(ev0 & Hin0 & Hc0 & Hr0) Hmin]. split.
        -- exists ev0. split; [|done]. apply elem_of_app. by left.
        -- intros ev' [Hin|Hin%list_elem_of_singleton]%elem_of_app Hc'.
           ++ by apply Hmin.
           ++ by subst ev'.
      * intros ev' [Hin|Hin%list_elem_of_singleton]%elem_of_app.
        -- by apply IH.
        -- by subst ev'.
Qed.



End FoldFacts.

(** ** The entries of a completed run *)

Section EntryFacts.
Implicit Types (st : agg_state) (net : network) (ev : event).


(** An entry exists exactly for the names that were sighted, and is the
    fold of [sight] over the sightings. *)
Lemma run_entry net st nm e :
  aggregate net = inr st ->
  dict_get nm (subreddit_data st) = Some e ->
  exists first rest,
    events_of nm (all_events net) = first :: rest
    /\ e = foldl sight
             (new_entry nm (ev_sub first) (ev_size_filter first))
             (first :: rest).
Proof.
  intros ->%aggregate_replay. rewrite replay_entry.
  destruct (events_of nm (all_events net)) as [|first rest]; [done|].
  intros [= <-]. by exists first, rest.
Qed.

Lemma sighted_event net nm sf sb i sub :
  well_typed net -> sf ∈ SIZE_FILTERS -> sb ∈ SORT_PERIODS ->
  results_or_empty net sf sb !! i = Some (Mapping sub) ->
  qualifying sub = true -> record_name sub = nm ->
  mkEvent sf sb (Z.of_nat i) sub ∈ events_of nm (all_events net).
Proof.
  intros Hwt Hsf Hsb Hi Hq Hn. apply elem_of_events_of. split; [done|].
  apply elem_of_all_events. simpl. repeat split; [done..|lia|].
  rewrite Nat2Z.id. apply mappings_lookup; [by apply Hwt | done].
Qed.

Lemma event_origin net nm ev :
  well_typed net -> ev ∈ events_of nm (all_events net) ->
  ev_size_filter ev ∈ SIZE_FILTERS /\ ev_sort_by ev ∈ SORT_PERIODS
  /\ 0 <= ev_rank ev
  /\ results_or_empty net (ev_size_filter ev) (ev_sort_by ev)
       !! Z.to_nat (ev_rank ev) = Some (Mapping (ev_sub ev))
  /\ qualifying (ev_sub ev) = true /\ record_name (ev_sub ev) = nm.
Proof.
  intros Hwt [[Hq Hn] (Hsf & Hsb & Hle & Hi)%elem_of_all_events]
    %elem_of_events_of.
  repeat split; try done. apply mappings_lookup; [by apply Hwt | done].
Qed.

(** The rank slot read by [get], written by the events of period [sb]. *)
Lemma run_slot (get : SubredditScore -> option Z) (cond : event -> Prop)
    (sb : string) net st nm e :
  (forall ev, cond ev \/ ~ cond ev) ->
  (forall e ev, cond ev ->
     get (sight e ev)
     = if improves (ev_rank ev) (get e) then Some (ev_rank ev) else get e) ->
  (forall e ev, ~ cond ev -> get (sight e ev) = get e) ->
  (forall nm' sub sf, get (new_entry nm' sub sf) = None) ->
  sb ∈ SORT_PERIODS ->
  (forall ev,
     ev_sort_by ev ∈ SORT_PERIODS -> cond ev <-> ev_sort_by ev = sb) ->
  aggregate net = inr st ->
  dict_get nm (subreddit_data st) = Some e ->
  match get e with
  | None =>
      forall sf i sub,
        sf ∈ SIZE_FILTERS ->
        results_or_empty net sf sb !! i = Some (Mapping sub) ->
        qualifying sub = true -> record_name sub <> nm
  | Some r =>
      (exists sf sub,
         sf ∈ SIZE_FILTERS /\ 0 <= r
         /\ results_or_empty net sf sb !! Z.to_nat r = Some (Mapping sub)
         /\ qualifying sub = true /\ record_name sub = nm)
      /\ (forall sf i sub,
            sf ∈ SIZE_FILTERS ->
            results_or_empty net sf sb !! i = Some (Mapping sub) ->
            qualifying sub = true -> record_name sub = nm ->
            r <= Z.of_nat i)
  end.
Proof.
  intros Hdec Hyes Hno Hnew Hsb Hcond Hagg Hget.
  pose proof (aggregate_well_typed _ _ Hagg) as Hwt.
  destruct (run_entry _ _ _ _ Hagg Hget) as (first & rest & Hocc & ->).
  pose proof (fold_slot get cond Hdec Hyes Hno (first :: rest)
                (new_entry nm (ev_sub first) (ev_size_filter first))
                (Hnew _ _ _)) as Hslot.
  assert (Hev : forall sf i sub,
            sf ∈ SIZE_FILTERS ->
            results_or_empty net sf sb !! i = Some (Mapping sub) ->
            qualifying sub = true -> record_name sub = nm ->
            mkEvent sf sb (Z.of_nat i) sub ∈ first :: rest
            /\ cond (mkEvent sf sb (Z.of_nat i) sub)).
  { intros sf i sub Hsf Hi Hq Hn. split.
    - rewrite <- Hocc. by apply sighted_event.
    - by apply Hcond. }
  destruct (get _) as [r|].
  - destruct Hslot as [(ev & Hin & Hc & <-) Hmin]. split.
    + rewrite <- Hocc in Hin.
      destruct (event_origin _ _ _ Hwt Hin)
        as (Hsf & Hsb' & Hle & Hi & Hq & Hn).
      apply Hcond in Hc; [|done]. rewrite Hc in Hi.
      by exists (ev_size_filter ev), (ev_sub ev).
    + intros sf i sub Hsf Hi Hq Hn.
      destruct (Hev sf i sub Hsf Hi Hq Hn) as [Hin' Hc'].
      apply (Hmin _ Hin' Hc').
  - intros sf i sub Hsf Hi Hq Hn.
    destruct (Hev sf i sub Hsf Hi Hq Hn) as [Hin' Hc'].
    by apply (Hslot _ Hin').
Qed.

Lemma sight_daily_rank e ev :
  ev_sort_by ev = "daily" ->
  daily_rank (sight e ev)
  = if improves (ev_rank ev) (daily_rank e)
    then Some (ev_rank ev) else daily_rank e.
Proof.
  intros H. unfold sight. by rewrite sighting_daily_rank, decide_True.
Qed.

Lemma sight_daily_rank_other e ev :
  ev_sort_by ev <> "daily" -> daily_rank (sight e ev) = daily_rank e.
Proof.
  intros H. unfold sight. by rewrite sighting_daily_rank, decide_False.
Qed.

Lemma sight_weekly_rank e ev :
  ev_sort_by ev <> "daily" ->
  weekly_rank (sight e ev)
  = if improves (ev_rank ev) (weekly_rank e)
    then Some (ev_rank ev) else weekly_rank e.
Proof.
  intros H. unfold sight. by rewrite sighting_weekly_rank, decide_False.
Qed.

Lemma sight_weekly_rank_other e ev :
  ~ ev_sort_by ev <> "daily" -> weekly_rank (sight e ev) = weekly_rank e.
Proof.
  intros H. unfold sight. rewrite sighting_weekly_rank.
  case_decide; [done | by destruct H].
Qed.

Lemma not_daily_is_weekly sb :
  sb ∈ SORT_PERIODS -> sb <> "daily" <-> sb = "weekly".
Proof.
  unfold SORT_PERIODS. rewrite !elem_of_cons, elem_of_nil.
  intros [->|[->|[]]]; split; done.
Qed.


End EntryFacts.

(** ** Monotonicity of the scorer *)

Section ScoreOrder.
Import Scorer.
Local Open Scope Q_scope.

Lemma position_points_bounds (rank : option Z) :
  0 <= position_points rank
  /\ (forall r, rank = Some r -> (0 <= r)%Z -> position_points rank <= 20)
  /\ (forall r, rank = Some r -> (20 <= r)%Z -> position_points rank == 0).
Proof.
  unfold position_points. split; [|split].
  - destruct rank as [r|]; [|apply Qle_refl].
    change 0 with (inject_Z 0). rewrite <- Zle_Qle. lia.
  - intros r -> Hr. change 20 with (inject_Z 20). rewrite <- Zle_Qle. lia.
  - intros r -> Hr. replace (Z.max 0 (20 - r)) with 0%Z by lia. reflexivity.
Qed.

Lemma position_points_mono (new old : option Z) :
  rank_not_worse new old -> position_points old <= position_points new.
Proof.
  unfold rank_not_worse, position_points.
  destruct old as [o|], new as [n|]; try done.
  - intros Hle. rewrite <- Zle_Qle. lia.
  - intros _. change 0 with (inject_Z 0). rewrite <- Zle_Qle. lia.
Qed.

Lemma appearance_bonus_mono (m n : Z) :
  (m <= n)%Z -> appearance_bonus m <= appearance_bonus n.
Proof.
  unfold appearance_bonus. intros Hle.
  destruct (Z.leb_spec 2 m), (Z.leb_spec 2 n); try lia.
  - rewrite <- Zle_Qle. lia.
  - change 0 with (inject_Z 0). rewrite <- Zle_Qle. lia.
  - apply Qle_refl.
Qed.


Lemma capped_mono (a b cap : Q) : a <= b -> Qmin a cap <= Qmin b cap.
Proof. intros Hle. by apply Q.min_le_compat_r. Qed.

Lemma score_mono (e1 e2 : SubredditScore) :
  rank_not_worse (daily_rank e2) (daily_rank e1) ->
  rank_not_worse (weekly_rank e2) (weekly_rank e1) ->
  (appearances e1 <= appearances e2)%Z ->
  daily_growth_pct e1 <= daily_growth_pct e2 ->
  weekly_growth_pct e1 <= weekly_growth_pct e2 ->
  calculate_composite_score e1 <= calculate_composite_score e2.
Proof.
  intros Hd Hw Ha Hgd Hgw. rewrite !score_unfolds.
  unfold rank_and_appearance_points.
  pose proof (position_points_mono _ _ Hd).
  pose proof (position_points_mono _ _ Hw).
  pose proof (appearance_bonus_mono _ _ Ha).
  pose proof (capped_mono _ _ 100 Hgd).
  pose proof (capped_mono _ _ 500 Hgw).
  unfold Qdiv. change (/ 10) with (1 # 10). change (/ 50) with (1 # 50).
  lra.
Qed.

End ScoreOrder.

(** ** What Phase 2 takes and what it leaves *)

Section FillFacts.
Implicit Types (sel : selection) (entries : list SubredditScore).




Lemma fill_selected_mono entries : forall sel n,
  n ∈ selected sel -> n ∈ selected (fill sel entries).
Proof.
  induction entries as [|e entries IH]; intros sel n Hn; cbn [fill]; [done|].
  case_decide; [by apply IH|].
  assert (n ∈ selected (select (name e) (composite_score e) sel))
    by (simpl; set_solver).
  case_limit; [done | by apply IH].
Qed.

(** Phase 2 stops early only at the limit: otherwise every entry it was
    given ends up selected. *)
Lemma fill_complete entries : forall sel,
  (FINAL_OUTPUT_LIMIT <= length (final_list (fill sel entries)))%nat
  \/ forall e, e ∈ entries -> name e ∈ selected (fill sel entries).
Proof.
  induction entries as [|e entries IH]; intros sel; cbn [fill].
  - right. by intros e ?%elem_of_nil.
  - case_decide as Hsel.
    + destruct (IH sel) as [?|Hall]; [by left|]. right.
      intros e' [->|He']%elem_of_cons; [|by apply Hall].
      by apply fill_selected_mono.
    + destruct (Nat.leb_spec FINAL_OUTPUT_LIMIT
        (length (final_list (select (name e) (composite_score e) sel))));
        [by left|].
      destruct (IH (select (name e) (composite_score e) sel))
        as [?|Hall]; [by left|].
      right. intros e' [->|He']%elem_of_cons; [|by apply Hall].
      apply fill_selected_mono. simpl. set_solver.
Qed.


Lemma NoDup_concat_map {A B} (f : A -> list B) (l : list A) :
  NoDup l -> (forall a, NoDup (f a)) ->
  (forall a b x, x ∈ f a -> x ∈ f b -> a = b) ->
  NoDup (concat (map f l)).
Proof.
  intros Hl Hf Hdisj. induction Hl as [|a l Ha Hl IH]; simpl.
  - constructor.
  - apply NoDup_app. split; [done|]. split; [|done].
    intros x Hx (b & Hb & Hxb)%elem_of_concat_map.
    by rewrite (Hdisj a b x Hx Hxb) in Ha.
Qed.

End FillFacts.

(** ** The output against the whole map *)

Section OutputFacts.
Variable st : agg_state.
Hypothesis tidy : well_formed st.

Lemma scored_key_entry n :
  n ∈ dict_keys (subreddit_data st) ->
  exists e,
    e ∈ dict_values (scored st) /\ name e = n
    /\ dict_get n (scored st) = Some e.
Proof.
  intros Hn. unfold scored.
  rewrite <- score_all_keys in Hn.
  apply dict_get_is_Some in Hn as [e He]. exists e.
  pose proof (dict_get_Some_elem _ _ _ He) as Hin.
  split; [|split; [|done]].
  - apply list_elem_of_fmap. by exists (n, e).
  - destruct (score_all_elem _ _ _ Hin) as (e0 & He0 & ->). simpl.
    destruct tidy as (_ & Hnm & _). by apply Hnm.
Qed.

Lemma blend_selected n :
  n ∈ selected (phase2 (scored st) (phase1 (scored st) (by_size_category st)))
  <-> n ∈ blend st.
Proof.
  rewrite (blend_perm st).
  destruct (blend_selection_ok st tidy) as (_ & Hset & _). apply Hset.
Qed.

(** The output is full, or it is the whole map. *)
Lemma blend_full :
  length (blend st) = FINAL_OUTPUT_LIMIT
  \/ blend st ≡ₚ dict_keys (subreddit_data st).
Proof.
  pose proof (blend_length st) as Hle.
  pose proof (phase1_length st) as H1.
  assert (Hcase :
    (FINAL_OUTPUT_LIMIT <= length (blend st))%nat
    \/ forall e, e ∈ dict_values (scored st) -> name e ∈ blend st).
  { rewrite (blend_perm st), length_fmap.
    setoid_rewrite <- blend_selected. unfold phase2.
    destruct (Z.ltb_spec 0
      (Z.of_nat FINAL_OUTPUT_LIMIT
       - Z.of_nat (length (final_list
           (phase1 (scored st) (by_size_category st))))));
      [|unfold FINAL_OUTPUT_LIMIT in *; lia].
    destruct (fill_complete
      (sorted_desc composite_score (dict_values (scored st)))
      (phase1 (scored st) (by_size_category st))) as [?|Hall]; [by left|].
    right. intros e He. apply Hall. by rewrite sorted_desc_perm. }
  destruct Hcase as [?|Hall]; [left; lia|]. right.
  apply NoDup_Permutation; [by apply blend_NoDup | apply tidy|].
  intros n. split; [by apply blend_in_keys|].
  intros (e & He & <- & _)%scored_key_entry. by apply Hall.
Qed.

Lemma blend_length_exact :
  length (blend st)
  = min FINAL_OUTPUT_LIMIT (length (dict_keys (subreddit_data st))).
Proof.
  pose proof (blend_length st) as Hle.
  assert (length (blend st) <= length (dict_keys (subreddit_data st)))%nat.
  { apply submseteq_length, NoDup_submseteq; [by apply blend_NoDup|].
    intros n. by apply blend_in_keys. }
  destruct blend_full as [?|Hperm]; [lia|].
  rewrite Hperm in *. lia.
Qed.

Lemma blend_all_when_few :
  (length (dict_keys (subreddit_data st)) <= FINAL_OUTPUT_LIMIT)%nat ->
  blend st ≡ₚ dict_keys (subreddit_data st).
Proof.
  intros Hfew. apply submseteq_length_Permutation.
  - apply NoDup_submseteq; [by apply blend_NoDup|].
    intros n. by apply blend_in_keys.
  - rewrite blend_length_exact. lia.
Qed.


End OutputFacts.

(** * Further theorems *)

Import MoreSamples.



(** X3.  In the state a run ends in, the entry of a name is a function of
    the sightings of that name alone, in loop order: none without a
    sighting, else created from the first one and updated by each in turn.
    Records of other names have no part in it. *)
Theorem entry_is_built_from_its_sightings (net : network) (st : agg_state) :
  aggregate net = inr st ->
  forall nm,
    dict_get nm (subreddit_data st)
    = entry_from nm (events_of nm (all_events net)).
Proof. intros ->%aggregate_replay nm. apply replay_entry. Qed.

(** X4.  The daily rank of an entry is the least index at which a
    qualifying record of its name stands in any of the daily result lists,
    the index counting every element of the list, skipped or not; it is
    absent exactly when no daily list holds such a record.  Likewise the
    weekly rank and the weekly lists. *)
Theorem rank_is_best_position (net : network) (st : agg_state)
    (nm : string) (e : SubredditScore) :
  aggregate net = inr st ->
  dict_get nm (subreddit_data st) = Some e ->
  match daily_rank e with
  | None =>
      forall sf i sub,
        sf ∈ SIZE_FILTERS ->
        results_or_empty net sf "daily" !! i = Some (Mapping sub) ->
        qualifying sub = true -> record_name sub <> nm
  | Some r =>
      (exists sf sub,
         sf ∈ SIZE_FILTERS /\ 0 <= r
         /\ results_or_empty net sf "daily" !! Z.to_nat r
            = Some (Mapping sub)
         /\ qualifying sub = true /\ record_name sub = nm)
      /\ (forall sf i sub,
            sf ∈ SIZE_FILTERS ->
            results_or_empty net sf "daily" !! i = Some (Mapping sub) ->
            qualifying sub = true -> record_name sub = nm ->
            r <= Z.of_nat i)
  end
  /\ match weekly_rank e with
     | None =>
         forall sf i sub,
           sf ∈ SIZE_FILTERS ->
           results_or_empty net sf "weekly" !! i = Some (Mapping sub) ->
           qualifying sub = true -> record_name sub <> nm
     | Some r =>
         (exists sf sub,
            sf ∈ SIZE_FILTERS /\ 0 <= r
            /\ results_or_empty net sf "weekly" !! Z.to_nat r
               = Some (Mapping sub)
            /\ qualifying sub = true /\ record_name sub = nm)
         /\ (forall sf i sub,
               sf ∈ SIZE_FILTERS ->
               results_or_empty net sf "weekly" !! i = Some (Mapping sub) ->
               qualifying sub = true -> record_name sub = nm ->
               r <= Z.of_nat i)
     end.
Proof.
  intros Hagg Hget. split.
  - apply (run_slot daily_rank (fun ev => ev_sort_by ev = "daily") "daily"
             net st nm e); try done.
    + intros ev. destruct (decide (ev_sort_by ev = "daily")); auto.
    + intros e0 ev. apply sight_daily_rank.
    + intros e0 ev. apply sight_daily_rank_other.
    + unfold SORT_PERIODS. left.
  - apply (run_slot weekly_rank (fun ev => ev_sort_by ev <> "daily")
             "weekly" net st nm e); try done.
    + intros ev. destruct (decide (ev_sort_by ev = "daily")); auto.
    + intros e0 ev. apply sight_weekly_rank.
    + intros e0 ev. apply sight_weekly_rank_other.
    + unfold SORT_PERIODS. right. left.
    + intros ev. apply not_daily_is_weekly.
Qed.




Lemma run_entry_sound (net : network) (st : agg_state)
    (nm : string) (e : SubredditScore) :
  aggregate net = inr st ->
  dict_get nm (subreddit_data st) = Some e ->
  name e = nm /\ nm <> ""
  /\ 1 <= appearances e
  /\ (daily_rank e <> None \/ weekly_rank e <> None)
  /\ (forall r, daily_rank e = Some r \/ weekly_rank e = Some r -> 0 <= r)
  /\ size_filter e ∈ SIZE_FILTERS.
Proof.
  intros Hagg Hget.
  pose proof (aggregate_well_typed _ _ Hagg) as Hwt.
  destruct (run_entry _ _ _ _ Hagg Hget) as (first & rest & Hocc & ->).
  assert (Hfirst : first ∈ events_of nm (all_events net))
    by (rewrite Hocc; by left).
  destruct (event_origin _ _ _ Hwt Hfirst)
    as (Hsf & Hsb & _ & _ & Hq & Hn).
  destruct (fold_frame (first :: rest)
              (new_entry nm (ev_sub first) (ev_size_filter first)))
    as (Hname & _ & Hfilter & _ & Happ).
  pose proof (fold_slot daily_rank (fun ev => ev_sort_by ev = "daily")
    (fun ev => match decide (ev_sort_by ev = "daily") with
               | left H => or_introl H | right H => or_intror H end)
    (fun e0 ev => sight_daily_rank e0 ev)
    (fun e0 ev => sight_daily_rank_other e0 ev)
    (first :: rest) (new_entry nm (ev_sub first) (ev_size_filter first))
    eq_refl) as Hd.
  pose proof (fold_slot weekly_rank (fun ev => ev_sort_by ev <> "daily")
    (fun ev => match decide (ev_sort_by ev = "daily") with
               | left H => or_intror (fun H' => H' H)
               | right H => or_introl H end)
    (fun e0 ev => sight_weekly_rank e0 ev)
    (fun e0 ev => sight_weekly_rank_other e0 ev)
    (first :: rest) (new_entry nm (ev_sub first) (ev_size_filter first))
    eq_refl) as Hw.
  assert (Hrank : forall ev, ev ∈ first :: rest -> 0 <= ev_rank ev).
  { intros ev Hin. rewrite <- Hocc in Hin.
    by destruct (event_origin _ _ _ Hwt Hin) as (_ & _ & ? & _). }
  split; [done|]. split.
  { apply qualifying_spec in Hq as [Hq _]. by rewrite Hn in Hq. }
  split; [rewrite Happ; simpl; lia|].
  split; [|split; [|by rewrite Hfilter]].
  - destruct (daily_rank _); [by left|]. right.
    destruct (weekly_rank _); [done|]. exfalso.
    apply (Hw first); [by left|]. apply (Hd first). by left.
  - intros r [Hr|Hr]; rewrite Hr in *.
    + destruct Hd as [(ev & Hin & _ & <-) _]. by apply Hrank.
    + destruct Hw as [(ev & Hin & _ & <-) _]. by apply Hrank.
Qed.

(** X7.  Every entry of the state a run ends in is stored under its own
    name, which is not empty; it counts at least one appearance; it has a
    rank for at least one period; its ranks are not negative; and its size
    filter is one of the four queried. *)
Theorem entries_are_sound (net : network) (st : agg_state)
    (nm : string) (e : SubredditScore) :
  aggregate net = inr st ->
  dict_get nm (subreddit_data st) = Some e ->
  name e = nm /\ nm <> ""
  /\ 1 <= appearances e
  /\ (daily_rank e <> None \/ weekly_rank e <> None)
  /\ (forall r, daily_rank e = Some r \/ weekly_rank e = Some r -> 0 <= r)
  /\ size_filter e ∈ SIZE_FILTERS.
Proof. apply run_entry_sound. Qed.



(** X8.  The score is monotone in its five inputs: ranks no worse, no fewer
    appearances and no less growth never give a lower score; and it
    depends on nothing but these five fields. *)
Theorem score_is_monotone :
  (forall e1 e2,
     rank_not_worse (daily_rank e2) (daily_rank e1) ->
     rank_not_worse (weekly_rank e2) (weekly_rank e1) ->
     appearances e1 <= appearances e2 ->
     (daily_growth_pct e1 <= daily_growth_pct e2)%Q ->
     (weekly_growth_pct e1 <= weekly_growth_pct e2)%Q ->
     (Scorer.calculate_composite_score e1
      <= Scorer.calculate_composite_score e2)%Q)
  /\ (forall e1 e2,
        daily_rank e1 = daily_rank e2 -> weekly_rank e1 = weekly_rank e2 ->
        appearances e1 = appearances e2 ->
        (daily_growth_pct e1 == daily_growth_pct e2)%Q ->
        (weekly_growth_pct e1 == weekly_growth_pct e2)%Q ->
        (Scorer.calculate_composite_score e1
         == Scorer.calculate_composite_score e2)%Q).
Proof.
  split; [apply score_mono|].
  intros e1 e2 Hd Hw Ha Hgd Hgw. apply Qle_antisym; apply score_mono;
    rewrite ?Hd, ?Hw, ?Ha, ?Hgd, ?Hgw;
    try apply rank_not_worse_refl; try apply Qle_refl; lia.
Qed.


(** X10.  Growth adds at most 20 points to the rank and appearance points,
    and exactly 20 once both growth figures reach their caps of 100 and
    500; the score of an entry of a completed run is at most
    60 + 15 * (appearances - 1). *)
Theorem score_is_bounded :
  (forall sub,
     (Scorer.calculate_composite_score sub
      <= Scorer.rank_and_appearance_points sub + 20)%Q)
  /\ (forall sub,
        (100 <= daily_growth_pct sub)%Q -> (500 <= weekly_growth_pct sub)%Q ->
        (Scorer.calculate_composite_score sub
         == Scorer.rank_and_appearance_points sub + 20)%Q)
  /\ (forall net st nm e,
        aggregate net = inr st ->
        dict_get nm (subreddit_data st) = Some e ->
        (Scorer.calculate_composite_score e
         <= inject_Z (60 + 15 * (appearances e - 1)))%Q).
Proof.
  assert (Hcap : forall sub,
    (Scorer.calculate_composite_score sub
     <= Scorer.rank_and_appearance_points sub + 20)%Q).
  { intros sub. rewrite score_unfolds.
    pose proof (Q.le_min_r (daily_growth_pct sub) 100).
    pose proof (Q.le_min_r (weekly_growth_pct sub) 500).
    unfold Qdiv. change (/ 10)%Q with (1 # 10)%Q.
    change (/ 50)%Q with (1 # 50)%Q. lra. }
  split; [done|]. split.
  - intros sub Hd Hw. rewrite score_unfolds.
    rewrite (Q.min_r _ _ Hd), (Q.min_r _ _ Hw).
    unfold Qdiv. change (/ 10)%Q with (1 # 10)%Q.
    change (/ 50)%Q with (1 # 50)%Q. ring.
  - intros net st nm e Hagg Hget.
    destruct (run_entry_sound _ _ _ _ Hagg Hget)
      as (_ & _ & Happ & _ & Hrank & _).
    eapply Qle_trans; [apply Hcap|].
    unfold Scorer.rank_and_appearance_points.
    assert (Hpos : forall slot,
      (forall r, slot = Some r -> 0 <= r) ->
      (Scorer.position_points slot <= 20)%Q).
    { intros [r|] Hr; [|done].
      by apply (proj1 (proj2 (position_points_bounds (Some r))) r), Hr. }
    pose proof (Hpos (daily_rank e) (fun r H => Hrank r (or_introl H))).
    pose proof (Hpos (weekly_rank e) (fun r H => Hrank r (or_intror H))).
    assert (Scorer.appearance_bonus (appearances e)
            == inject_Z (15 * (appearances e - 1)))%Q as Hb.
    { unfold Scorer.appearance_bonus.
      destruct (Z.leb_spec 2 (appearances e)); [done|].
      replace (appearances e) with 1 by lia. reflexivity. }
    rewrite Hb, inject_Z_plus. change (inject_Z 60) with 60%Q. lra.
Qed.

Lemma keys_count net st :
  aggregate net = inr st ->
  size (list_to_set (observed_names (mappings (all_results net)))
        : gset string)
  = length (dict_keys (subreddit_data st)).
Proof.
  intros Hr%aggregate_reaches.
  pose proof (reaches_well_formed _ _ Hr) as Hwf.
  rewrite <- (size_list_to_set (C := gset string)) by apply Hwf.
  f_equal. apply set_eq. intros n. rewrite !elem_of_list_to_set.
  symmetry. by apply reaches_keys.
Qed.

(** X11.  The list a run returns has exactly min(30, d) names, where d is
    the number of distinct names among the qualifying records of all the
    result lists; when d is at most 30, every such name is in the list. *)
Theorem output_length_is_exact (net : network) (out : list string) :
  generate_blended_trending net = inr out ->
  length out
  = min 30 (size (list_to_set (observed_names (mappings (all_results net)))
                  : gset string))
  /\ ((size (list_to_set (observed_names (mappings (all_results net)))
             : gset string) <= 30)%nat ->
      forall nm,
        nm ∈ out <-> nm ∈ observed_names (mappings (all_results net))).
Proof.
  intros (st & Hagg & ->)%run_inversion.
  pose proof (aggregate_reaches _ _ Hagg) as Hr.
  pose proof (reaches_well_formed _ _ Hr) as Hwf.
  rewrite (keys_count _ _ Hagg). split; [by apply blend_length_exact|].
  intros Hfew nm. rewrite (blend_all_when_few st Hwf Hfew).
  by apply reaches_keys.
Qed.

(** X12.  Every name in the list a run returns is the non-empty name of a
    record, met in some result list, that carries no NSFW flag. *)
Theorem output_names_are_qualifying (net : network) (out : list string)
    (nm : string) :
  generate_blended_trending net = inr out ->
  nm ∈ out ->
  nm <> ""
  /\ exists sub,
       sub ∈ mappings (all_results net) /\ record_name sub = nm
       /\ is_nsfw sub = false.
Proof.
  intros (st & Hagg & ->)%run_inversion Hin.
  pose proof (aggregate_reaches _ _ Hagg) as Hr.
  pose proof (reaches_well_formed _ _ Hr) as Hwf.
  apply (blend_in_keys st Hwf), (reaches_keys _ _ Hr) in Hin.
  unfold observed_names in Hin.
  apply list_elem_of_fmap in Hin as (sub & -> & Hsub).
  apply list_elem_of_filter in Hsub as [Hq Hsub].
  apply Is_true_true, qualifying_spec in Hq as [Hne Hq].
  split; [done|]. by exists sub.
Qed.



(** X15.  In the state a run ends in, the four category lists together
    hold every name of the map exactly once. *)
Theorem categories_partition_names (net : network) (st : agg_state) :
  aggregate net = inr st ->
  concat (map (fun c => by_size_category st !!! c) SIZE_FILTERS)
  ≡ₚ dict_keys (subreddit_data st).
Proof.
  intros Hagg.
  pose proof (reaches_well_formed _ _ (aggregate_reaches _ _ Hagg)) as Hwf.
  apply NoDup_Permutation.
  - apply NoDup_concat_map; [apply SIZE_FILTERS_NoDup|..].
    + intros c. by apply category_NoDup.
    + intros c1 c2 n. by apply category_disjoint.
  - apply Hwf.
  - intros n. rewrite elem_of_concat_map. split.
    + intros (c & _ & Hn). by eapply category_in_keys.
    + intros [e He]%dict_get_is_Some.
      destruct (run_entry_sound _ _ _ _ Hagg He) as (_ & _ & _ & _ & _ & Hsf).
      exists (size_filter e). split; [done|].
      apply (category_recorded _ _ _ Hwf). unfold recorded_under.
      rewrite He. by apply bool_decide_eq_true.
Qed.



(** X17.  An index of 20 or more earns no position points: an entry with
    such a rank scores like one with no rank for that period, all else
    equal. *)
Theorem late_ranks_score_nothing (e1 e2 : SubredditScore) (r : Z) :
  20 <= r ->
  appearances e1 = appearances e2 ->
  (daily_growth_pct e1 == daily_growth_pct e2)%Q ->
  (weekly_growth_pct e1 == weekly_growth_pct e2)%Q ->
  (daily_rank e1 = Some r /\ daily_rank e2 = None
   /\ weekly_rank e1 = weekly_rank e2)
  \/ (weekly_rank e1 = Some r /\ weekly_rank e2 = None
      /\ daily_rank e1 = daily_rank e2) ->
  (Scorer.calculate_composite_score e1
   == Scorer.calculate_composite_score e2)%Q.
Proof.
  intros Hr Ha Hgd Hgw Hranks. rewrite !score_unfolds.
  unfold Scorer.rank_and_appearance_points.
  rewrite Ha, Hgd, Hgw.
  pose proof (proj2 (proj2 (position_points_bounds (Some r))) r eq_refl Hr)
    as Hzero.
  change (Scorer.position_points None) with 0%Q.
  destruct Hranks as [(-> & -> & ->)|(-> & -> & ->)];
    change (Scorer.position_points None) with 0%Q; rewrite Hzero; ring.
Qed.

(** X18.  The run returns the empty list exactly when no result list holds
    a qualifying record; so it does when every one of the eight fetches
    raises. *)
Theorem empty_output_iff_nothing_observed (net : network) :
  (forall out,
     generate_blended_trending net = inr out ->
     out = [] <-> observed_names (mappings (all_results net)) = [])
  /\ ((forall sf sb, sf ∈ SIZE_FILTERS -> sb ∈ SORT_PERIODS ->
         exists e, fetch_subreddits net sf sb = inl e) ->
      generate_blended_trending net = inr []).
Proof.
  assert (Hiff : forall out,
     generate_blended_trending net = inr out ->
     out = [] <-> observed_names (mappings (all_results net)) = []).
  { intros out (st & Hagg & ->)%run_inversion.
    pose proof (aggregate_reaches _ _ Hagg) as Hr.
    pose proof (reaches_well_formed _ _ Hr) as Hwf.
    pose proof (blend_length_exact st Hwf) as Hlen.
    split.
    - intros Hnil. rewrite Hnil in Hlen. simpl in Hlen.
      assert (Hk : dict_keys (subreddit_data st) = []).
      { destruct (dict_keys (subreddit_data st)); [done|].
        unfold FINAL_OUTPUT_LIMIT in Hlen. simpl in Hlen. lia. }
      destruct (observed_names _) as [|n l] eqn:Hobs; [done|].
      assert (n ∈ dict_keys (subreddit_data st))
        by (apply (reaches_keys _ _ Hr); rewrite Hobs; by left).
      rewrite Hk in *. by apply elem_of_nil in H.
    - intros Hobs.
      destruct (blend st) as [|n l] eqn:Hb; [done|].
      assert (Hn : n ∈ blend st) by (rewrite Hb; by left).
      apply (blend_in_keys st Hwf), (reaches_keys _ _ Hr) in Hn.
      rewrite Hobs in Hn. by apply elem_of_nil in Hn. }
  split; [done|]. intros Hfail.
  assert (Hempty : forall sf sb, sf ∈ SIZE_FILTERS -> sb ∈ SORT_PERIODS ->
            results_or_empty net sf sb = []).
  { intros sf sb Hsf Hsb. unfold results_or_empty.
    by destruct (Hfail sf sb Hsf Hsb) as [e ->]. }
  destruct (well_typed_completes net) as [st Hagg].
  { intros sf sb Hsf Hsb. rewrite Hempty by done. apply not_elem_of_nil. }
  assert (Hrun : generate_blended_trending net = inr (blend st))
    by (unfold generate_blended_trending; by rewrite Hagg).
  rewrite Hrun. f_equal. apply (Hiff _ Hrun).
  assert (all_results net = []) as ->; [|done].
  unfold all_results.
  assert (Hin : forall x, x ∉ concat (map (fun sf =>
            concat (map (results_or_empty net sf) SORT_PERIODS))
            SIZE_FILTERS)).
  { intros x (sf & Hsf & (sb & Hsb & Hx)%elem_of_concat_map)
      %elem_of_concat_map.
    rewrite Hempty in Hx by done. by apply elem_of_nil in Hx. }
  destruct (concat _) as [|x l]; [done|]. destruct (Hin x). by left.
Qed.

(** * The further theorems at work on the sample inputs *)


Lemma entry_is_built_from_its_sightings_witness :
  dict_get "a" (subreddit_data (state_of crossing))
  = entry_from "a" (events_of "a" (all_events crossing)).
Proof.
  apply (entry_is_built_from_its_sightings crossing (state_of crossing)).
  reflexivity.
Defined.

Lemma rank_is_best_position_witness :
  exists sf sub,
    sf ∈ SIZE_FILTERS /\ 0 <= 1
    /\ results_or_empty crossing sf "daily" !! Z.to_nat 1
       = Some (Mapping sub)
    /\ qualifying sub = true /\ record_name sub = "a".
Proof.
  pose proof (rank_is_best_position crossing (state_of crossing) "a"
                (entry_of crossing "a") eq_refl eq_refl) as [Hd _].
  change (daily_rank (entry_of crossing "a")) with (Some 1) in Hd.
  exact (proj1 Hd).
Defined.



Lemma entries_are_sound_witness :
  name (entry_of crossing "a") = "a" /\ "a" <> ""
  /\ 1 <= appearances (entry_of crossing "a")
  /\ (daily_rank (entry_of crossing "a") <> None
      \/ weekly_rank (entry_of crossing "a") <> None)
  /\ (forall r,
        daily_rank (entry_of crossing "a") = Some r
        \/ weekly_rank (entry_of crossing "a") = Some r -> 0 <= r)
  /\ size_filter (entry_of crossing "a") ∈ SIZE_FILTERS.
Proof.
  apply (entries_are_sound crossing (state_of crossing)); reflexivity.
Defined.

Lemma score_is_monotone_witness :
  (Scorer.calculate_composite_score shrinking
   <= Scorer.calculate_composite_score Scorer.both_periods_top)%Q
  /\ (Scorer.calculate_composite_score (at_rank 3)
      == Scorer.calculate_composite_score (at_rank 3))%Q.
Proof.
  split.
  - apply (proj1 score_is_monotone shrinking Scorer.both_periods_top);
      simpl; (lia || discriminate).
  - apply (proj2 score_is_monotone (at_rank 3) (at_rank 3)); reflexivity.
Defined.


Lemma score_is_bounded_witness :
  (Scorer.calculate_composite_score booming
   == Scorer.rank_and_appearance_points booming + 20)%Q
  /\ (Scorer.calculate_composite_score (entry_of crossing "a")
      <= inject_Z (60 + 15 * (appearances (entry_of crossing "a") - 1)))%Q.
Proof.
  destruct score_is_bounded as (_ & Hcap & Hrun). split.
  - apply (Hcap booming); discriminate.
  - apply (Hrun crossing (state_of crossing) "a"); reflexivity.
Defined.

Lemma output_length_is_exact_witness :
  length (output_of ten_each)
  = min 30 (size (list_to_set
                    (observed_names (mappings (all_results ten_each)))
                  : gset string)).
Proof.
  apply (proj1 (output_length_is_exact ten_each (output_of ten_each)
                  ltac:(vm_compute; reflexivity))).
Defined.

Lemma output_names_are_qualifying_witness :
  "a" <> ""
  /\ exists sub,
       sub ∈ mappings (all_results crossing) /\ record_name sub = "a"
       /\ is_nsfw sub = false.
Proof.
  apply (output_names_are_qualifying crossing (output_of crossing)).
  - reflexivity.
  - by_evaluation.
Defined.



Lemma categories_partition_names_witness :
  concat (map (fun c => by_size_category (state_of crossing) !!! c)
              SIZE_FILTERS)
  ≡ₚ dict_keys (subreddit_data (state_of crossing)).
Proof.
  apply (categories_partition_names crossing). reflexivity.
Defined.


Lemma late_ranks_score_nothing_witness :
  (Scorer.calculate_composite_score (at_rank 25)
   == Scorer.calculate_composite_score unranked)%Q.
Proof.
  apply (late_ranks_score_nothing (at_rank 25) unranked 25);
    [lia | reflexivity.. | left; repeat split].
Defined.

Lemma empty_output_iff_nothing_observed_witness :
  generate_blended_trending failing_status = inr []
  /\ (["a"; "b"] = []
      <-> observed_names (mappings (all_results medium_daily_only)) = []).
Proof.
  split.
  - apply (proj2 (empty_output_iff_nothing_observed failing_status)).
    intros sf sb _ _. exists HTTPError. reflexivity.
  - apply (proj1 (empty_output_iff_nothing_observed medium_daily_only)).
    reflexivity.
Defined.
